(** * Point: the 3D point/vector type of [include/geometry.hpp]

    The C++ type [Point] wraps a [std::array<double,3>] and offers vector
    arithmetic, three norms and a 4x4 affine transform.  The embedding keeps
    two features of the source that a value-only model would lose:

    - [double] is IEEE-754 binary64, so coordinates are primitive floats
      and the arithmetic is the rounding, NaN-propagating one, evaluated
      operation by operation in round-to-nearest-even as the source writes
      it (no fused multiply-add, no extended precision);
    - every argument is passed by reference ([const Point&],
      [const double&], [const Matrix4d&]) and the in-place operators write
      through [this], so the methods run over a store of objects and an
      argument may designate (part of) the receiver. *)

From Stdlib Require Import ZArith Reals Lra Floats Lia Bool.
From stdpp Require Import gmap.

Local Open Scope Z_scope.

(** ** Values *)

(** [double] of the source: IEEE-754 binary64. *)
Abbreviation double := float.

(** [std::array<double,3>].  [operator[]] of [std::array] is unchecked: an
    index outside the array has undefined behaviour, which [array3_at]
    and [array3_set] report as [None]. *)
Record array3 : Set := Array3 { el0 : double; el1 : double; el2 : double }.

Definition array3_at (a : array3) (i : Z) : option double :=
  match i with
  | 0 => Some (el0 a)
  | 1 => Some (el1 a)
  | 2 => Some (el2 a)
  | _ => None
  end.

Definition array3_set (a : array3) (i : Z) (v : double) : option array3 :=
  match i with
  | 0 => Some (Array3 v (el1 a) (el2 a))
  | 1 => Some (Array3 (el0 a) v (el2 a))
  | 2 => Some (Array3 (el0 a) (el1 a) v)
  | _ => None
  end.

(** [std::array<T,4>], used twice for [Matrix4d]. *)
Record array4 (T : Type) : Type := Array4 { c0 : T; c1 : T; c2 : T; c3 : T }.
Arguments Array4 {T} _ _ _ _.
Arguments c0 {T} _.
Arguments c1 {T} _.
Arguments c2 {T} _.
Arguments c3 {T} _.

Definition array4_at {T : Type} (a : array4 T) (i : Z) : option T :=
  match i with
  | 0 => Some (c0 a)
  | 1 => Some (c1 a)
  | 2 => Some (c2 a)
  | 3 => Some (c3 a)
  | _ => None
  end.

Definition array4_set {T : Type} (a : array4 T) (i : Z) (v : T) : option (array4 T) :=
  match i with
  | 0 => Some (Array4 v (c1 a) (c2 a) (c3 a))
  | 1 => Some (Array4 (c0 a) v (c2 a) (c3 a))
  | 2 => Some (Array4 (c0 a) (c1 a) v (c3 a))
  | 3 => Some (Array4 (c0 a) (c1 a) (c2 a) v)
  | _ => None
  end.

(** [using Matrix4d = std::array<std::array<double,4>,4>]: row-major. *)
Abbreviation Matrix4d := (array4 (array4 double)).

(** [struct Point]: the single private member [xyz]. *)
Record Point : Set := mkPoint { xyz : array3 }.

(** ** The store of objects and references into it *)

(** Object identities. *)
Abbreviation loc := positive.

Record store : Type := Store {
  points : gmap positive Point;
  scalars : gmap positive double;
  matrices : gmap positive Matrix4d
}.

(** What a [double&] or [const double&] can designate. *)
Inductive dref : Set :=
| Coord (p : loc) (i : Z)      (* p.xyz[i] *)
| Entry (m : loc) (i j : Z)    (* m[i][j] *)
| Var (l : loc).               (* a double object of its own *)

(** *** Expressions: they read the store and never change it *)

Definition rv (A : Type) : Type := store -> option A.

Definition rv_ret {A : Type} (a : A) : rv A := fun _ => Some a.

Definition rv_map {A B : Type} (f : A -> B) (e : rv A) : rv B :=
  fun s => match e s with Some a => Some (f a) | None => None end.

Definition rv_map2 {A B C : Type} (f : A -> B -> C) (e1 : rv A) (e2 : rv B) : rv C :=
  fun s =>
    match e1 s, e2 s with
    | Some a, Some b => Some (f a b)
    | _, _ => None
    end.

Definition rv_map3 {A B C D : Type} (f : A -> B -> C -> D)
    (e1 : rv A) (e2 : rv B) (e3 : rv C) : rv D :=
  fun s =>
    match e1 s, e2 s, e3 s with
    | Some a, Some b, Some c => Some (f a b c)
    | _, _, _ => None
    end.

(** Reading through a reference. *)
Definition rd (r : dref) : rv double :=
  fun s =>
    match r with
    | Coord p i =>
        match points s !! p with
        | Some P => array3_at (xyz P) i
        | None => None
        end
    | Entry m i j =>
        match matrices s !! m with
        | Some M =>
            match array4_at M i with
            | Some row => array4_at row j
            | None => None
            end
        | None => None
        end
    | Var l => scalars s !! l
    end.

Declare Scope rv_scope.
Delimit Scope rv_scope with rv.
Bind Scope rv_scope with rv.
Notation "a + b" := (rv_map2 PrimFloat.add a b) : rv_scope.
Notation "a - b" := (rv_map2 PrimFloat.sub a b) : rv_scope.
Notation "a * b" := (rv_map2 PrimFloat.mul a b) : rv_scope.
Notation "a / b" := (rv_map2 PrimFloat.div a b) : rv_scope.

(** *** Commands: they may write, and may have undefined behaviour *)

Inductive outcome (A : Type) : Type :=
| Returns (v : A) (s : store)
| Undefined.
Arguments Returns {A} v s.
Arguments Undefined {A}.

Definition M (A : Type) : Type := store -> outcome A.

Definition ret {A : Type} (a : A) : M A := fun s => Returns a s.

Definition bind {A B : Type} (c : M A) (k : A -> M B) : M B :=
  fun s =>
    match c s with
    | Returns a s' => k a s'
    | Undefined => Undefined
    end.

(** The store after the object [this] has been given the value [P]. *)
Definition set_point (this : loc) (P : Point) (s : store) : store :=
  Store (<[this := P]> (points s)) (scalars s) (matrices s).

Definition eval {A : Type} (e : rv A) : M A :=
  fun s => match e s with Some a => Returns a s | None => Undefined end.

Definition write (r : dref) (v : double) : M unit :=
  fun s =>
    match r with
    | Coord p i =>
        match points s !! p with
        | Some P =>
            match array3_set (xyz P) i v with
            | Some a => Returns tt (set_point p (mkPoint a) s)
            | None => Undefined
            end
        | None => Undefined
        end
    | Entry m i j =>
        match matrices s !! m with
        | Some M =>
            match array4_at M i with
            | Some row =>
                match array4_set row j v with
                | Some row' =>
                    match array4_set M i row' with
                    | Some M' => Returns tt (Store (points s) (scalars s) (<[m := M']> (matrices s)))
                    | None => Undefined
                    end
                | None => Undefined
                end
            | None => Undefined
            end
        | None => Undefined
        end
    | Var l =>
        match scalars s !! l with
        | Some _ => Returns tt (Store (points s) (<[l := v]> (scalars s)) (matrices s))
        | None => Undefined
        end
    end.

Declare Scope cmd_scope.
Delimit Scope cmd_scope with cmd.
Bind Scope cmd_scope with M.
Notation "x <- c ;; k" := (bind c (fun x => k))
  (at level 100, c at next level, k at level 200, right associativity) : cmd_scope.
Notation "c ;; k" := (bind c (fun _ => k))
  (at level 100, k at level 200, right associativity) : cmd_scope.

(** [r = e]. *)
Definition assign (r : dref) (e : rv double) : M unit :=
  (v <- eval e ;; write r v)%cmd.

(** The compound assignments [r += e], [r -= e], [r *= e], [r /= e]:
    [r] is read once, combined with the value of [e], and written back. *)
Definition add_assign (r : dref) (e : rv double) : M unit := assign r (rd r + e)%rv.
Definition sub_assign (r : dref) (e : rv double) : M unit := assign r (rd r - e)%rv.
Definition mul_assign (r : dref) (e : rv double) : M unit := assign r (rd r * e)%rv.
Definition div_assign (r : dref) (e : rv double) : M unit := assign r (rd r / e)%rv.

(** A member function can only be called on an object that exists. *)
Definition alive (p : loc) : M unit :=
  fun s => match points s !! p with Some _ => Returns tt s | None => Undefined end.

(** [std::abs], [std::sqrt] and [std::max] on [double].  [std::max(a, b)]
    is [(a < b) ? b : a]. *)
Definition std_abs (a : double) : double := PrimFloat.abs a.
Definition std_sqrt (a : double) : double := PrimFloat.sqrt a.
Definition std_max (a b : double) : double := if PrimFloat.ltb a b then b else a.

(** ** Constructors *)

(** [Point() : xyz({0., 0., 0.})] *)
Definition Point_default : Point := mkPoint (Array3 0%float 0%float 0%float).

(** [Point(const double& x, const double& y, const double& z) : xyz({x, y, z})].
    The three arguments are read once, before the new object exists. *)
Definition Point_xyz (x y z : double) : Point := mkPoint (Array3 x y z).

(** [Point(const std::array<double,3>& arr) : xyz(arr)] *)
Definition Point_array (arr : array3) : Point := mkPoint arr.

(** [Point(const Point& a, const Point& b)
      : xyz({b.xyz[0]-a.xyz[0], b.xyz[1]-a.xyz[1], b.xyz[2]-a.xyz[2]})] *)
Definition Point_from_to (a b : loc) : rv Point :=
  rv_map Point_array
    (rv_map3 Array3
       (rd (Coord b 0) - rd (Coord a 0))%rv
       (rd (Coord b 1) - rd (Coord a 1))%rv
       (rd (Coord b 2) - rd (Coord a 2))%rv).

(** ** Operators *)

(** [Point operator+(const Point& p) const] *)
Definition operator_add (this p : loc) : rv Point :=
  rv_map3 Point_xyz
    (rd (Coord this 0) + rd (Coord p 0))%rv
    (rd (Coord this 1) + rd (Coord p 1))%rv
    (rd (Coord this 2) + rd (Coord p 2))%rv.

(** [Point operator-(const Point& p) const] *)
Definition operator_sub (this p : loc) : rv Point :=
  rv_map3 Point_xyz
    (rd (Coord this 0) - rd (Coord p 0))%rv
    (rd (Coord this 1) - rd (Coord p 1))%rv
    (rd (Coord this 2) - rd (Coord p 2))%rv.

(** [Point operator*(const double& d) const] *)
Definition operator_mul (this : loc) (d : dref) : rv Point :=
  rv_map3 Point_xyz
    (rd (Coord this 0) * rd d)%rv
    (rd (Coord this 1) * rd d)%rv
    (rd (Coord this 2) * rd d)%rv.

(** [Point operator/(const double& d) const] *)
Definition operator_div (this : loc) (d : dref) : rv Point :=
  rv_map3 Point_xyz
    (rd (Coord this 0) / rd d)%rv
    (rd (Coord this 1) / rd d)%rv
    (rd (Coord this 2) / rd d)%rv.

(** [Point& operator+=(const Point& p)]:
    [xyz[0] += p.xyz[0], xyz[1] += p.xyz[1], xyz[2] += p.xyz[2]; return *this;] *)
Definition operator_add_assign (this p : loc) : M loc :=
  (add_assign (Coord this 0) (rd (Coord p 0)) ;;
   add_assign (Coord this 1) (rd (Coord p 1)) ;;
   add_assign (Coord this 2) (rd (Coord p 2)) ;;
   ret this)%cmd.

(** [Point& operator-=(const Point& p)] *)
Definition operator_sub_assign (this p : loc) : M loc :=
  (sub_assign (Coord this 0) (rd (Coord p 0)) ;;
   sub_assign (Coord this 1) (rd (Coord p 1)) ;;
   sub_assign (Coord this 2) (rd (Coord p 2)) ;;
   ret this)%cmd.

(** [Point& operator*=(const double& d)]:
    [xyz[0] *= d, xyz[1] *= d, xyz[2] *= d; return *this;]
    [d] is a reference: it is read again for every coordinate. *)
Definition operator_mul_assign (this : loc) (d : dref) : M loc :=
  (mul_assign (Coord this 0) (rd d) ;;
   mul_assign (Coord this 1) (rd d) ;;
   mul_assign (Coord this 2) (rd d) ;;
   ret this)%cmd.

(** [Point& operator/=(const double& d)] *)
Definition operator_div_assign (this : loc) (d : dref) : M loc :=
  (div_assign (Coord this 0) (rd d) ;;
   div_assign (Coord this 1) (rd d) ;;
   div_assign (Coord this 2) (rd d) ;;
   ret this)%cmd.

(** ** Component access *)

(** [double x() const], [double y() const], [double z() const]: a copy. *)
Definition x_const (this : loc) : rv double := rd (Coord this 0).
Definition y_const (this : loc) : rv double := rd (Coord this 1).
Definition z_const (this : loc) : rv double := rd (Coord this 2).

(** [double& x()], [double& y()], [double& z()]: a reference. *)
Definition x_ref (this : loc) : M dref := (alive this ;; ret (Coord this 0))%cmd.
Definition y_ref (this : loc) : M dref := (alive this ;; ret (Coord this 1))%cmd.
Definition z_ref (this : loc) : M dref := (alive this ;; ret (Coord this 2))%cmd.

(** [double operator[](const int i) const { return xyz[i]; }] *)
Definition operator_index_const (this : loc) (i : Z) : rv double := rd (Coord this i).

(** [double& operator[](const int i) { return xyz[i]; }]: forming the
    reference [xyz[i]] already needs [i] to be inside the array. *)
Definition operator_index_ref (this : loc) (i : Z) : M dref :=
  (_ <- eval (rd (Coord this i)) ;; ret (Coord this i))%cmd.

(** ** Metric operations *)

(** [double dot(const Point& p) const] *)
Definition dot (this p : loc) : rv double :=
  (rd (Coord this 0) * rd (Coord p 0)
   + rd (Coord this 1) * rd (Coord p 1)
   + rd (Coord this 2) * rd (Coord p 2))%rv.

(** [Point cross(const Point& p) const] *)
Definition cross (this p : loc) : rv Point :=
  rv_map3 Point_xyz
    (rd (Coord this 1) * rd (Coord p 2) - rd (Coord p 1) * rd (Coord this 2))%rv
    (rd (Coord this 2) * rd (Coord p 0) - rd (Coord p 2) * rd (Coord this 0))%rv
    (rd (Coord this 0) * rd (Coord p 1) - rd (Coord p 0) * rd (Coord this 1))%rv.

(** [double norm1() const] *)
Definition norm1 (this : loc) : rv double :=
  (rv_map std_abs (rd (Coord this 0))
   + rv_map std_abs (rd (Coord this 1))
   + rv_map std_abs (rd (Coord this 2)))%rv.

(** [double norm2() const] *)
Definition norm2 (this : loc) : rv double :=
  rv_map std_sqrt
    (rd (Coord this 0) * rd (Coord this 0)
     + rd (Coord this 1) * rd (Coord this 1)
     + rd (Coord this 2) * rd (Coord this 2))%rv.

(** [double normInf() const] *)
Definition normInf (this : loc) : rv double :=
  rv_map2 std_max
    (rv_map std_abs (rd (Coord this 0)))
    (rv_map2 std_max
       (rv_map std_abs (rd (Coord this 1)))
       (rv_map std_abs (rd (Coord this 2)))).

(** ** Affine transform *)

(** [Point& transform(const Matrix4d& m)]: the three new coordinates are
    computed into locals before any of them is stored. *)
Definition transform (this m : loc) : M loc :=
  (new_x <- eval (rd (Coord this 0) * rd (Entry m 0 0) + rd (Coord this 1) * rd (Entry m 0 1)
                  + rd (Coord this 2) * rd (Entry m 0 2) + rd (Entry m 0 3))%rv ;;
   new_y <- eval (rd (Coord this 0) * rd (Entry m 1 0) + rd (Coord this 1) * rd (Entry m 1 1)
                  + rd (Coord this 2) * rd (Entry m 1 2) + rd (Entry m 1 3))%rv ;;
   new_z <- eval (rd (Coord this 0) * rd (Entry m 2 0) + rd (Coord this 1) * rd (Entry m 2 1)
                  + rd (Coord this 2) * rd (Entry m 2 2) + rd (Entry m 2 3))%rv ;;
   assign (Coord this 0) (rv_ret new_x) ;;
   assign (Coord this 1) (rv_ret new_y) ;;
   assign (Coord this 2) (rv_ret new_z) ;;
   ret this)%cmd.

(** ** Vocabulary of the statements *)

(** [a == b] on [double]: IEEE comparison, so [-0 == +0] and [NaN != NaN]. *)
Definition double_eqb (a b : double) : bool := PrimFloat.eqb a b.

(** Componentwise [==] of two points. *)
Definition Point_eqb (P Q : Point) : bool :=
  double_eqb (el0 (xyz P)) (el0 (xyz Q))
  && double_eqb (el1 (xyz P)) (el1 (xyz Q))
  && double_eqb (el2 (xyz P)) (el2 (xyz Q)).

(** [std::isfinite] and [std::isnan] on all three coordinates. *)
Definition Point_is_finite (P : Point) : bool :=
  is_finite (el0 (xyz P)) && is_finite (el1 (xyz P)) && is_finite (el2 (xyz P)).

Definition Point_has_nan (P : Point) : bool :=
  is_nan (el0 (xyz P)) || is_nan (el1 (xyz P)) || is_nan (el2 (xyz P)).

(** Neither a finite number nor a zero: an infinity or a NaN. *)
Definition double_not_finite (a : double) : bool := is_nan a || is_infinity a.

(** The 4x4 identity matrix and the translation by [(tx, ty, tz)]. *)
Definition identity4 : Matrix4d :=
  (Array4 (Array4 1 0 0 0) (Array4 0 1 0 0) (Array4 0 0 1 0) (Array4 0 0 0 1))%float.

Definition translation4 (tx ty tz : double) : Matrix4d :=
  (Array4 (Array4 1 0 0 tx) (Array4 0 1 0 ty) (Array4 0 0 1 tz) (Array4 0 0 0 1))%float.

(** [s'] differs from [s] at most in the point object [this]. *)
Definition same_except (this : loc) (s s' : store) : Prop :=
  (forall q, q <> this -> points s' !! q = points s !! q)
  /\ scalars s' = scalars s
  /\ matrices s' = matrices s.

(** Shapes of a binary64 value, on its [spec_float] reading. *)
Definition SFfin (f : spec_float) : Prop :=
  match f with S754_zero _ | S754_finite _ _ _ => True | _ => False end.

Definition SFzero (f : spec_float) : Prop :=
  match f with S754_zero _ => True | _ => False end.

Definition SFnonneg (f : spec_float) : Prop :=
  match f with
  | S754_zero _ => True
  | S754_infinity s | S754_finite s _ _ => s = false
  | S754_nan => False
  end.

(** Equal, or two zeros of whatever sign. *)
Definition SFagree (a b : spec_float) : Prop := a = b \/ (SFzero a /\ SFzero b).

(** The three norm formulas of the source read over the real numbers, that
    is, without rounding, overflow or underflow. *)
Module Exact.

Definition norm1 (x y z : R) : R := (Rabs x + Rabs y + Rabs z)%R.

Definition norm2 (x y z : R) : R := R_sqrt.sqrt (x * x + y * y + z * z)%R.

Definition normInf (x y z : R) : R := Rmax (Rabs x) (Rmax (Rabs y) (Rabs z)).

End Exact.

(** ** Concrete stores used as examples *)

(** [Point p(2,3,4);] at object 1. *)
Definition store_p234 : store :=
  Store {[ 1%positive := Point_xyz 2 3 4 ]}%float ∅ ∅.

(** [Point p(1,0,0), q(0,1,0);] at objects 1 and 2. *)
Definition store_axes : store :=
  Store {[ 1%positive := Point_xyz 1 0 0; 2%positive := Point_xyz 0 1 0 ]}%float ∅ ∅.

(** Points with a tiny, a huge, an infinite and a NaN first coordinate, the
    zero point at object 5, [Point(1,1,1)] at object 6, [Point(-0.,0,0)] at
    object 7, the [double]s 0 and 2 at objects 1 and 2, and three matrices:
    the identity at object 1, the translation by [(2,0,0)] at object 2, and
    at object 3 the identity with its bottom row replaced by [(5,6,7,8)]. *)
Definition store_edge : store :=
  Store
    {[ 1%positive := Point_xyz 0x1p-600 0 0;
       2%positive := Point_xyz 0x1p600 0 0;
       3%positive := Point_xyz infinity 0 0;
       4%positive := Point_xyz nan 0 0;
       5%positive := Point_default;
       6%positive := Point_xyz 1 1 1;
       7%positive := Point_xyz neg_zero 0 0 ]}%float
    {[ 1%positive := 0%float; 2%positive := 2%float ]}
    {[ 1%positive := identity4;
       2%positive := translation4 2 0 0;
       3%positive := Array4 (Array4 1 0 0 0) (Array4 0 1 0 0) (Array4 0 0 1 0)
                            (Array4 5 6 7 8) ]}%float.

(** ** Vocabulary and stores of the further properties *)

(** The point with every coordinate negated. *)
Definition Point_opp (P : Point) : Point :=
  Point_xyz (- el0 (xyz P)) (- el1 (xyz P)) (- el2 (xyz P))%float.

(** [Point(1,2,3)], [Point(4,5,6)], [Point(1,NaN,100)],
    [Point(2^600,2^600,0)], the zero point and [Point(2,0,0)] at objects 1
    to 6, the [double]s 1, 2 and 0 at objects 1 to 3, and the translation by
    [(2,0,0)] at matrix object 1. *)
Definition store_more : store :=
  Store
    {[ 1%positive := Point_xyz 1 2 3;
       2%positive := Point_xyz 4 5 6;
       3%positive := Point_xyz 1 nan 100;
       4%positive := Point_xyz 0x1p600 0x1p600 0;
       5%positive := Point_default;
       6%positive := Point_xyz 2 0 0 ]}%float
    {[ 1%positive := 1%float; 2%positive := 2%float; 3%positive := 0%float ]}
    {[ 1%positive := translation4 2 0 0 ]}%float.

(** * Facts about binary64 arithmetic *)

Section Binary64.

Lemma SFeqb_refl f : f <> S754_nan -> SFeqb f f = true.
Proof.
  destruct f as [s|s| |s m e]; intros H; try congruence; unfold SFeqb; cbn.
  - reflexivity.
  - destruct s; reflexivity.
  - rewrite Z.compare_refl, Pos.compare_cont_refl. destruct s; reflexivity.
Qed.

Lemma is_nan_spec a : is_nan a = false <-> Prim2SF a <> S754_nan.
Proof.
  unfold is_nan. rewrite FloatAxioms.eqb_spec. split.
  - intros H E. rewrite E in H. discriminate.
  - intros H. rewrite SFeqb_refl by assumption. reflexivity.
Qed.

Lemma is_finite_spec a : is_finite a = true <-> SFfin (Prim2SF a).
Proof.
  unfold is_finite, is_nan, is_infinity.
  rewrite !FloatAxioms.eqb_spec, abs_spec.
  change (Prim2SF infinity) with (S754_infinity false).
  destruct (Prim2SF a) as [s|s| |s m e]; cbn;
    rewrite ?Z.compare_refl, ?Pos.compare_cont_refl;
    try destruct s; cbn; intuition discriminate.
Qed.

Lemma SF0 : Prim2SF 0%float = S754_zero false.
Proof. reflexivity. Qed.

Lemma SF1 : Prim2SF 1%float = S754_finite false 4503599627370496 (-52).
Proof. reflexivity. Qed.

(** *** Multiplying by one is exact *)

Lemma iter_shr_1_exact n : forall m,
  SpecFloat.iter_pos shr_1 n (Build_shr_record (Z.pos (Pos.iter xO m n)) false false)
  = Build_shr_record (Z.pos m) false false.
Proof.
  induction n as [n IH|n IH|]; intros m; cbn [SpecFloat.iter_pos Pos.iter].
  - cbn [shr_1 orb]. rewrite IH, IH. reflexivity.
  - rewrite IH, IH. reflexivity.
  - reflexivity.
Qed.

Lemma digits2_pos_iter_xO n : forall m,
  Z.pos (digits2_pos (Pos.iter xO m n)) = Z.pos (digits2_pos m) + Z.pos n.
Proof.
  induction n as [|n IH] using Pos.peano_ind; intros m.
  - cbn. lia.
  - rewrite Pos.iter_succ. cbn [digits2_pos]. specialize (IH m). lia.
Qed.

Lemma SFmul_one_r s m e :
  valid_binary (S754_finite s m e) = true ->
  SF64mul (S754_finite s m e) (S754_finite false 4503599627370496 (-52)) = S754_finite s m e.
Proof.
  intros Hv. cbn in Hv. unfold bounded, canonical_mantissa in Hv.
  apply andb_prop in Hv. destruct Hv as [Hc Hb].
  apply Z.eqb_eq in Hc.
  unfold SF64mul, SFmul. rewrite xorb_false_r.
  replace (m * 4503599627370496)%positive with (Pos.iter xO m 52)
    by (rewrite Pos.mul_comm; reflexivity).
  unfold binary_round_aux.
  assert (Hs : shr_fexp prec emax (Z.pos (Pos.iter xO m 52)) (e + -52) loc_Exact
               = (Build_shr_record (Z.pos m) false false, e)).
  { unfold shr_fexp. cbn [Zdigits2]. rewrite digits2_pos_iter_xO.
    replace (fexp prec emax (Z.pos (digits2_pos m) + 52 + (e + -52)) - (e + -52)) with 52
      by (unfold fexp, SpecFloat.emin, emax, prec in *; lia).
    cbn [shr shr_record_of_loc]. rewrite iter_shr_1_exact. f_equal. lia. }
  rewrite Hs. cbn [shr_m loc_of_shr_record round_nearest_even].
  unfold shr_fexp. cbn [Zdigits2]. rewrite Hc, Z.sub_diag. cbn [shr shr_record_of_loc shr_m].
  rewrite Hb. reflexivity.
Qed.

Lemma mul_one_r a : is_finite a = true -> (a * 1)%float = a.
Proof.
  intros H. apply is_finite_spec in H. apply Prim2SF_inj.
  rewrite mul_spec, SF1. pose proof (Prim2SF_valid a) as Hv.
  destruct (Prim2SF a) as [s|s| |s m e]; cbn in H; try contradiction.
  - cbn. rewrite xorb_false_r. reflexivity.
  - apply SFmul_one_r, Hv.
Qed.

(** *** Adding zeros *)

Lemma SFagree_eqb a b : SFfin b -> SFagree a b -> SFeqb a b = true.
Proof.
  intros Hb [->|[Ha Hz]].
  - apply SFeqb_refl. destruct b; cbn in Hb; congruence.
  - destruct a, b; cbn in *; try contradiction. reflexivity.
Qed.

Lemma SFmul_zero_r a : SFfin a -> SFzero (SF64mul a (S754_zero false)).
Proof. destruct a; cbn; tauto. Qed.

Lemma SFadd_zero_r a b z : SFfin b -> SFagree a b -> SFzero z -> SFagree (SF64add a z) b.
Proof.
  intros Hb Hab Hz. destruct z as [sz| | |]; cbn in Hz; try contradiction.
  destruct Hab as [->|[Ha Hb']].
  - destruct b as [sb| | |]; cbn in Hb; try contradiction.
    + right. destruct sb, sz; cbn; tauto.
    + left. reflexivity.
  - destruct a as [sa| | |], b as [sb| | |]; cbn in *; try contradiction.
    right. destruct sa, sz; cbn; tauto.
Qed.

Lemma SFadd_zero_l a b z : SFfin b -> SFagree a b -> SFzero z -> SFagree (SF64add z a) b.
Proof.
  intros Hb Hab Hz. destruct z as [sz| | |]; cbn in Hz; try contradiction.
  destruct Hab as [->|[Ha Hb']].
  - destruct b as [sb| | |]; cbn in Hb; try contradiction.
    + right. destruct sb, sz; cbn; tauto.
    + left. reflexivity.
  - destruct a as [sa| | |], b as [sb| | |]; cbn in *; try contradiction.
    right. destruct sa, sz; cbn; tauto.
Qed.

Lemma SFadd_zero_zero a z : SFzero a -> SFzero z -> SFzero (SF64add a z).
Proof. destruct a as [[]| | |], z as [[]| | |]; cbn; tauto. Qed.

(** The three rows of the identity matrix, applied to finite coordinates. *)
Lemma identity_row0 a b c :
  is_finite a = true -> is_finite b = true -> is_finite c = true ->
  (a * 1 + b * 0 + c * 0 + 0 =? a)%float = true.
Proof.
  intros Ha Hb Hc. rewrite (mul_one_r a Ha).
  apply is_finite_spec in Ha, Hb, Hc.
  rewrite FloatAxioms.eqb_spec, !add_spec, !mul_spec, SF0.
  apply SFagree_eqb; [exact Ha|].
  apply SFadd_zero_r; [exact Ha| |exact I].
  apply SFadd_zero_r; [exact Ha| |apply SFmul_zero_r, Hc].
  apply SFadd_zero_r; [exact Ha| |apply SFmul_zero_r, Hb].
  left. reflexivity.
Qed.

Lemma identity_row1 a b c :
  is_finite a = true -> is_finite b = true -> is_finite c = true ->
  (a * 0 + b * 1 + c * 0 + 0 =? b)%float = true.
Proof.
  intros Ha Hb Hc. rewrite (mul_one_r b Hb).
  apply is_finite_spec in Ha, Hb, Hc.
  rewrite FloatAxioms.eqb_spec, !add_spec, !mul_spec, SF0.
  apply SFagree_eqb; [exact Hb|].
  apply SFadd_zero_r; [exact Hb| |exact I].
  apply SFadd_zero_r; [exact Hb| |apply SFmul_zero_r, Hc].
  apply SFadd_zero_l; [exact Hb| |apply SFmul_zero_r, Ha].
  left. reflexivity.
Qed.

Lemma identity_row2 a b c :
  is_finite a = true -> is_finite b = true -> is_finite c = true ->
  (a * 0 + b * 0 + c * 1 + 0 =? c)%float = true.
Proof.
  intros Ha Hb Hc. rewrite (mul_one_r c Hc).
  apply is_finite_spec in Ha, Hb, Hc.
  rewrite FloatAxioms.eqb_spec, !add_spec, !mul_spec, SF0.
  apply SFagree_eqb; [exact Hc|].
  apply SFadd_zero_r; [exact Hc| |exact I].
  apply SFadd_zero_l; [exact Hc| left; reflexivity|].
  apply SFadd_zero_zero; apply SFmul_zero_r; assumption.
Qed.

Lemma add_zero_r a : is_nan a = false -> (a + 0 =? a)%float = true.
Proof.
  intros H. apply is_nan_spec in H.
  rewrite FloatAxioms.eqb_spec, add_spec, SF0.
  destruct (Prim2SF a) as [[]|[]| |s m e] eqn:E; try congruence; try reflexivity.
  cbn [SF64add SFadd]. apply SFeqb_refl. discriminate.
Qed.

Lemma sub_diag a : is_finite a = true -> (a - a =? 0)%float = true.
Proof.
  intros H. apply is_finite_spec in H.
  rewrite FloatAxioms.eqb_spec, sub_spec, SF0.
  destruct (Prim2SF a) as [[]| | |s m e]; cbn in H; try contradiction; try reflexivity.
  unfold SF64sub, SFsub. rewrite Z.sub_diag. reflexivity.
Qed.

(** *** Dividing by zero *)

Lemma div_zero a d :
  (d =? 0)%float = true -> double_not_finite (a / d)%float = true.
Proof.
  intros H. rewrite FloatAxioms.eqb_spec, SF0 in H.
  unfold double_not_finite, is_nan, is_infinity.
  rewrite !FloatAxioms.eqb_spec, abs_spec, div_spec.
  change (Prim2SF infinity) with (S754_infinity false).
  destruct (Prim2SF d) as [sd|[]| |[] md ed]; try discriminate H.
  destruct (Prim2SF a) as [sa|sa| |sa ma ea]; cbn; rewrite ?orb_true_r; reflexivity.
Qed.

(** *** Signs: a square root of a sum of squares is never negative *)

Lemma shr_1_nonneg r : 0 <= shr_m r -> 0 <= shr_m (shr_1 r).
Proof. destruct r as [[|[p|p|]|p] r s]; cbn; lia. Qed.

Lemma iter_shr_1_nonneg n : forall r,
  0 <= shr_m r -> 0 <= shr_m (SpecFloat.iter_pos shr_1 n r).
Proof.
  induction n as [n IH|n IH|]; intros r Hr; cbn [SpecFloat.iter_pos].
  - apply IH, IH, shr_1_nonneg, Hr.
  - apply IH, IH, Hr.
  - apply shr_1_nonneg, Hr.
Qed.

Lemma shr_fexp_nonneg m e l : 0 <= m -> 0 <= shr_m (fst (shr_fexp prec emax m e l)).
Proof.
  intros Hm. unfold shr_fexp, shr.
  assert (H0 : 0 <= shr_m (shr_record_of_loc m l)) by (destruct l as [|[]]; exact Hm).
  destruct (fexp prec emax (Zdigits2 m + e) - e); cbn [fst]; try exact H0.
  apply iter_shr_1_nonneg, H0.
Qed.

Lemma round_nearest_even_nonneg m l : 0 <= m -> 0 <= round_nearest_even m l.
Proof. intros Hm. destruct l as [|[]]; cbn; try destruct (Z.even m); lia. Qed.

Lemma binary_round_aux_nonneg m e l :
  0 <= m -> SFnonneg (binary_round_aux prec emax false m e l).
Proof.
  intros Hm. unfold binary_round_aux.
  pose proof (shr_fexp_nonneg m e l Hm) as H1.
  destruct (shr_fexp prec emax m e l) as [r1 e1]. cbn [fst] in H1.
  pose proof (shr_fexp_nonneg _ e1 loc_Exact
                (round_nearest_even_nonneg _ (loc_of_shr_record r1) H1)) as H2.
  destruct (shr_fexp prec emax _ e1 loc_Exact) as [r2 e2]. cbn [fst] in H2.
  destruct (shr_m r2) as [|p|p]; cbn; try lia; try exact I.
  destruct (e2 <=? emax - prec); reflexivity.
Qed.

Lemma SFmul_self_nonneg a : a <> S754_nan -> SFnonneg (SF64mul a a).
Proof.
  destruct a as [s|s| |s m e]; intros H; try congruence; cbn; try exact I.
  - apply xorb_nilpotent.
  - rewrite xorb_nilpotent. apply binary_round_aux_nonneg. lia.
Qed.

Lemma SFadd_nonneg a b : SFnonneg a -> SFnonneg b -> SFnonneg (SF64add a b).
Proof.
  destruct a as [sa|sa| |sa ma ea], b as [sb|sb| |sb mb eb]; cbn;
    intros Ha Hb; subst; try contradiction; try exact I; try reflexivity.
  - destruct sa, sb; exact I.
  - destruct (shl_align ma _ _) as [m1 e1], (shl_align mb _ _) as [m2 e2].
    cbn [fst cond_Zopp]. change (Z.pos m1 + Z.pos m2) with (Z.pos (m1 + m2)).
    cbn [binary_normalize]. unfold binary_round.
    destruct (shl_align _ _ _) as [mz ez]. apply binary_round_aux_nonneg. lia.
Qed.

Lemma SFsqrt_nonneg a : SFnonneg a -> SFnonneg (SF64sqrt a).
Proof.
  destruct a as [sa|sa| |sa ma ea]; cbn; intros Ha; subst; try contradiction;
    try exact I; try reflexivity.
  unfold SFsqrt_core_binary.
  set (e' := Z.min _ _). set (m' := match _ with Z.pos _ => _ | _ => _ end).
  assert (Hm : 0 <= m').
  { subst m'. destruct (ea - 2 * e'); try lia. apply Z.shiftl_nonneg. lia. }
  pose proof (Z.sqrtrem_spec m' Hm) as Hq.
  destruct (Z.sqrtrem m') as [q r].
  apply binary_round_aux_nonneg. lia.
Qed.

Lemma SFleb_zero_nonneg a : SFnonneg a -> SFleb (S754_zero false) a = true.
Proof.
  destruct a as [sa|sa| |sa ma ea]; cbn; intros Ha; subst; try contradiction; reflexivity.
Qed.


End Binary64.

(** * Running the methods *)

Section Methods.

Ltac run_step :=
  first
    [ progress cbn -[lookup insert]
    | rewrite lookup_insert_eq
    | rewrite lookup_insert_ne by congruence
    | match goal with
      | H : ?l = Some _ |- context [?l] => rewrite H
      end ].

Ltac run :=
  unfold operator_add_assign, operator_sub_assign, operator_mul_assign,
    operator_div_assign, transform, add_assign, sub_assign, mul_assign, div_assign,
    operator_index_ref, operator_index_const, x_ref, y_ref, z_ref, alive,
    x_const, y_const, z_const,
    Point_from_to, operator_add, operator_sub, operator_mul, operator_div,
    dot, cross, norm1, norm2, normInf,
    assign, bind, eval, write, rv_map, rv_map2, rv_map3, rv_ret, rd, set_point, ret,
    Point_xyz, Point_array, Point_default in *;
  repeat run_step.

(** [p += q], also when [q] is [p] itself. *)
Lemma operator_add_assign_spec s this p x y z a b c :
  points s !! this = Some (Point_xyz x y z) ->
  points s !! p = Some (Point_xyz a b c) ->
  operator_add_assign this p s
  = Returns this (set_point this (Point_xyz (x + a) (y + b) (z + c))%float s).
Proof.
  intros HP HQ. destruct (decide (p = this)) as [->|Hne].
  - rewrite HP in HQ. injection HQ as <- <- <-. run.
    rewrite !insert_insert_eq. reflexivity.
  - run. rewrite !insert_insert_eq. reflexivity.
Qed.

(** [p -= q], also when [q] is [p] itself. *)
Lemma operator_sub_assign_spec s this p x y z a b c :
  points s !! this = Some (Point_xyz x y z) ->
  points s !! p = Some (Point_xyz a b c) ->
  operator_sub_assign this p s
  = Returns this (set_point this (Point_xyz (x - a) (y - b) (z - c))%float s).
Proof.
  intros HP HQ. destruct (decide (p = this)) as [->|Hne].
  - rewrite HP in HQ. injection HQ as <- <- <-. run.
    rewrite !insert_insert_eq. reflexivity.
  - run. rewrite !insert_insert_eq. reflexivity.
Qed.

(** [p *= d] when [d] is not a reference to [p.xyz[0]] or [p.xyz[1]]. *)
Lemma operator_mul_assign_spec s this d x y z dv :
  points s !! this = Some (Point_xyz x y z) ->
  rd d s = Some dv ->
  d <> Coord this 0 -> d <> Coord this 1 ->
  operator_mul_assign this d s
  = Returns this (set_point this (Point_xyz (x * dv) (y * dv) (z * dv))%float s).
Proof.
  intros HP Hd H0 H1. destruct d as [q j|q i j|l].
  - destruct (decide (q = this)) as [->|Hne].
    + assert (j = 2) as ->.
      { unfold rd in Hd. rewrite HP in Hd.
        destruct j as [|[[]|[]|]|]; cbn in Hd; try discriminate; congruence. }
      unfold rd in Hd. rewrite HP in Hd. injection Hd as <-.
      run. rewrite !insert_insert_eq. reflexivity.
    + unfold rd in Hd. destruct (points s !! q) as [Q|] eqn:HQ; [|discriminate].
      run. rewrite !insert_insert_eq. reflexivity.
  - unfold rd in Hd.
    destruct (matrices s !! q) as [Mq|] eqn:HM; [|discriminate].
    destruct (array4_at Mq i) as [row|] eqn:Hrow; [|discriminate].
    run. rewrite !insert_insert_eq. reflexivity.
  - unfold rd in Hd. run. rewrite !insert_insert_eq. reflexivity.
Qed.

(** [p /= d] when [d] is not a reference to [p.xyz[0]] or [p.xyz[1]]. *)
Lemma operator_div_assign_spec s this d x y z dv :
  points s !! this = Some (Point_xyz x y z) ->
  rd d s = Some dv ->
  d <> Coord this 0 -> d <> Coord this 1 ->
  operator_div_assign this d s
  = Returns this (set_point this (Point_xyz (x / dv) (y / dv) (z / dv))%float s).
Proof.
  intros HP Hd H0 H1. destruct d as [q j|q i j|l].
  - destruct (decide (q = this)) as [->|Hne].
    + assert (j = 2) as ->.
      { unfold rd in Hd. rewrite HP in Hd.
        destruct j as [|[[]|[]|]|]; cbn in Hd; try discriminate; congruence. }
      unfold rd in Hd. rewrite HP in Hd. injection Hd as <-.
      run. rewrite !insert_insert_eq. reflexivity.
    + unfold rd in Hd. destruct (points s !! q) as [Q|] eqn:HQ; [|discriminate].
      run. rewrite !insert_insert_eq. reflexivity.
  - unfold rd in Hd.
    destruct (matrices s !! q) as [Mq|] eqn:HM; [|discriminate].
    destruct (array4_at Mq i) as [row|] eqn:Hrow; [|discriminate].
    run. rewrite !insert_insert_eq. reflexivity.
  - unfold rd in Hd. run. rewrite !insert_insert_eq. reflexivity.
Qed.

(** [p.transform(m)]. *)
Lemma transform_spec s this m x y z m00 m01 m02 m03 m10 m11 m12 m13 m20 m21 m22 m23 row3 :
  points s !! this = Some (Point_xyz x y z) ->
  matrices s !! m
  = Some (Array4 (Array4 m00 m01 m02 m03) (Array4 m10 m11 m12 m13)
                 (Array4 m20 m21 m22 m23) row3) ->
  transform this m s
  = Returns this
      (set_point this
         (Point_xyz (x * m00 + y * m01 + z * m02 + m03)
                    (x * m10 + y * m11 + z * m12 + m13)
                    (x * m20 + y * m21 + z * m22 + m23))%float s).
Proof.
  intros HP HM. run. rewrite !insert_insert_eq. reflexivity.
Qed.

End Methods.

(** * The claims *)

(** ** Affine transform *)

(** C1 (amended).  [p.transform(m)] overwrites the coordinates of [p] with
    [x*m[i][0] + y*m[i][1] + z*m[i][2] + m[i][3]] for [i = 0, 1, 2], where
    [x], [y], [z] are the coordinates before the call, and returns a
    reference to [p].  With the identity matrix, every point whose three
    coordinates are finite keeps coordinates that compare equal ([==]) to
    the old ones. *)
Theorem transform_affine s this m x y z
    m00 m01 m02 m03 m10 m11 m12 m13 m20 m21 m22 m23 row3 :
  points s !! this = Some (Point_xyz x y z) ->
  matrices s !! m
  = Some (Array4 (Array4 m00 m01 m02 m03) (Array4 m10 m11 m12 m13)
                 (Array4 m20 m21 m22 m23) row3) ->
  transform this m s
  = Returns this
      (set_point this
         (Point_xyz (x * m00 + y * m01 + z * m02 + m03)
                    (x * m10 + y * m11 + z * m12 + m13)
                    (x * m20 + y * m21 + z * m22 + m23))%float s)
  /\ (Array4 (Array4 m00 m01 m02 m03) (Array4 m10 m11 m12 m13)
             (Array4 m20 m21 m22 m23) row3 = identity4 ->
      Point_is_finite (Point_xyz x y z) = true ->
      Point_eqb
        (Point_xyz (x * m00 + y * m01 + z * m02 + m03)
                   (x * m10 + y * m11 + z * m12 + m13)
                   (x * m20 + y * m21 + z * m22 + m23))%float
        (Point_xyz x y z) = true).
Proof.
  intros HP HM. split.
  - apply transform_spec with (row3 := row3); assumption.
  - intros Hid Hfin. unfold identity4 in Hid.
    injection Hid as -> -> -> -> -> -> -> -> -> -> -> -> _.
    unfold Point_is_finite in Hfin. cbn in Hfin.
    apply andb_prop in Hfin. destruct Hfin as [Hxy Hz].
    apply andb_prop in Hxy. destruct Hxy as [Hx Hy].
    unfold Point_eqb, double_eqb. cbn.
    rewrite identity_row0, identity_row1, identity_row2 by assumption.
    reflexivity.
Qed.

Lemma transform_affine_witness :
  transform 6 1 store_edge
  = Returns 6%positive (set_point 6 (Point_xyz 1 1 1)%float store_edge)
  /\ Point_eqb (Point_xyz 1 1 1)%float (Point_xyz 1 1 1)%float = true.
Proof.
  destruct (transform_affine store_edge 6 1 1 1 1 1 0 0 0 0 1 0 0 0 0 1 0
              (Array4 0 0 0 1)%float eq_refl eq_refl) as [Hrun Hid].
  split.
  - exact Hrun.
  - exact (Hid eq_refl eq_refl).
Defined.

(** The identity matrix does not leave [Point(inf, 0, 0)] unchanged: it
    becomes [(inf, NaN, NaN)], because [inf * 0] is NaN. *)
Lemma transform_identity_not_neutral :
  points store_edge !! 3%positive = Some (Point_xyz infinity 0 0)%float
  /\ matrices store_edge !! 1%positive = Some identity4
  /\ transform 3 1 store_edge
     = Returns 3%positive (set_point 3 (Point_xyz infinity nan nan) store_edge)
  /\ Point_eqb (Point_xyz infinity nan nan) (Point_xyz infinity 0 0)%float = false.
Proof. repeat split; vm_compute; reflexivity. Qed.

(** With finite coordinates the identity matrix can still change the sign
    of a zero: [Point(-0.,0,0)] becomes [Point(+0.,0,0)], which compares
    equal to it but is a different value. *)
Example transform_identity_negative_zero :
  transform 7 1 store_edge
  = Returns 7%positive (set_point 7 (Point_xyz 0 0 0)%float store_edge)
  /\ Point_eqb (Point_xyz 0 0 0)%float (Point_xyz neg_zero 0 0)%float = true
  /\ Point_xyz 0 0 0 <> Point_xyz neg_zero 0 0.
Proof.
  split; [|split].
  - vm_compute. reflexivity.
  - vm_compute. reflexivity.
  - intros H. apply (f_equal (fun P => Prim2SF (el0 (xyz P)))) in H.
    vm_compute in H. discriminate H.
Qed.

(** The scenario of the specification: [Point(1,1,1)] translated by
    [(2,0,0)] is [Point(3,1,1)]. *)
Example transform_translation_scenario :
  transform 6 2 store_edge
  = Returns 6%positive (set_point 6 (Point_xyz 3 1 1)%float store_edge).
Proof.
  exact (transform_spec store_edge 6 2 1 1 1 1 0 0 2 0 1 0 0 0 0 1 0
           (Array4 0 0 0 1)%float eq_refl eq_refl).
Qed.

(** C2.  The result of [transform] does not depend on row 3 of the matrix:
    two matrices with the same rows 0, 1 and 2 give the same outcome, which
    is the affine combination above, with no division by a weight. *)
Theorem transform_ignores_row3 s this m m' x y z
    m00 m01 m02 m03 m10 m11 m12 m13 m20 m21 m22 m23 row3 row3' :
  points s !! this = Some (Point_xyz x y z) ->
  matrices s !! m
  = Some (Array4 (Array4 m00 m01 m02 m03) (Array4 m10 m11 m12 m13)
                 (Array4 m20 m21 m22 m23) row3) ->
  matrices s !! m'
  = Some (Array4 (Array4 m00 m01 m02 m03) (Array4 m10 m11 m12 m13)
                 (Array4 m20 m21 m22 m23) row3') ->
  transform this m s = transform this m' s
  /\ transform this m' s
     = Returns this
         (set_point this
            (Point_xyz (x * m00 + y * m01 + z * m02 + m03)
                       (x * m10 + y * m11 + z * m12 + m13)
                       (x * m20 + y * m21 + z * m22 + m23))%float s).
Proof.
  intros HP HM HM'.
  rewrite (transform_spec _ _ _ _ _ _ _ _ _ _ _ _ _ _ _ _ _ _ _ HP HM).
  rewrite (transform_spec _ _ _ _ _ _ _ _ _ _ _ _ _ _ _ _ _ _ _ HP HM').
  split; reflexivity.
Qed.

Lemma transform_ignores_row3_witness :
  transform 6 1 store_edge = transform 6 3 store_edge
  /\ transform 6 3 store_edge
     = Returns 6%positive (set_point 6 (Point_xyz 1 1 1)%float store_edge).
Proof.
  exact (transform_ignores_row3 store_edge 6 1 3 1 1 1 1 0 0 0 0 1 0 0 0 0 1 0
           (Array4 0 0 0 1)%float (Array4 5 6 7 8)%float eq_refl eq_refl eq_refl).
Defined.

(** ** Cross product *)

(** C3.  [p.cross(q)] is
    [(p.y*q.z - q.y*p.z, p.z*q.x - q.z*p.x, p.x*q.y - q.x*p.y)], the store is
    the same afterwards, and [Point(1,0,0).cross(Point(0,1,0))] is
    [Point(0,0,1)]. *)
Theorem cross_right_handed s this p px py pz qx qy qz :
  points s !! this = Some (Point_xyz px py pz) ->
  points s !! p = Some (Point_xyz qx qy qz) ->
  eval (cross this p) s
  = Returns (Point_xyz (py * qz - qy * pz) (pz * qx - qz * px) (px * qy - qx * py))%float s
  /\ eval (cross 1 2) store_axes = Returns (Point_xyz 0 0 1)%float store_axes.
Proof.
  intros HP HQ. split.
  - destruct (decide (p = this)) as [->|Hne].
    + rewrite HP in HQ. injection HQ as <- <- <-.
      unfold eval, cross, rv_map3, rv_map2, rd. rewrite HP. reflexivity.
    + unfold eval, cross, rv_map3, rv_map2, rd. rewrite HP, HQ. reflexivity.
  - vm_compute. reflexivity.
Qed.

Lemma cross_right_handed_witness :
  eval (cross 2 1) store_axes
  = Returns (Point_xyz (1 * 0 - 0 * 0) (0 * 1 - 0 * 0) (0 * 0 - 1 * 1))%float store_axes
  /\ eval (cross 1 2) store_axes = Returns (Point_xyz 0 0 1)%float store_axes.
Proof.
  exact (cross_right_handed store_axes 2 1 0 1 0 1 0 0 eq_refl eq_refl).
Defined.

(** ** Construction from two points, and the arithmetic operators *)

(** C5.  [Point(a, b)] is the displacement [b - a], coordinate by
    coordinate, and is the very value that [b - a] returns. *)
Theorem Point_from_to_displacement s a b ax ay az bx by' bz :
  points s !! a = Some (Point_xyz ax ay az) ->
  points s !! b = Some (Point_xyz bx by' bz) ->
  Point_from_to a b s = Some (Point_xyz (bx - ax) (by' - ay) (bz - az))%float
  /\ Point_from_to a b s = operator_sub b a s.
Proof.
  intros Ha Hb.
  unfold Point_from_to, operator_sub, rv_map, rv_map3, rv_map2, rd.
  destruct (decide (a = b)) as [->|Hne].
  - rewrite Ha in Hb. injection Hb as <- <- <-. rewrite Ha. split; reflexivity.
  - rewrite Ha, Hb. split; reflexivity.
Qed.

Lemma Point_from_to_displacement_witness :
  Point_from_to 6 2 store_edge
  = Some (Point_xyz (0x1p600 - 1) (0 - 1) (0 - 1))%float
  /\ Point_from_to 6 2 store_edge = operator_sub 2 6 store_edge.
Proof.
  exact (Point_from_to_displacement store_edge 6 2 1 1 1 0x1p600 0 0 eq_refl eq_refl).
Defined.

(** C6.  [(p * d)[i] = p[i] * d] and [(p / d)[i] = p[i] / d]; both
    operators return for every [d], and when [d == 0] each coordinate of
    [p / d] is an infinity or a NaN. *)
Theorem scalar_mul_div s this d x y z dv :
  points s !! this = Some (Point_xyz x y z) ->
  rd d s = Some dv ->
  operator_mul this d s = Some (Point_xyz (x * dv) (y * dv) (z * dv))%float
  /\ operator_div this d s = Some (Point_xyz (x / dv) (y / dv) (z / dv))%float
  /\ (double_eqb dv 0 = true ->
      double_not_finite (x / dv) = true
      /\ double_not_finite (y / dv) = true
      /\ double_not_finite (z / dv) = true).
Proof.
  intros HP Hd. repeat split.
  - unfold operator_mul, rv_map3, rv_map2. rewrite Hd.
    unfold rd. rewrite HP. reflexivity.
  - unfold operator_div, rv_map3, rv_map2. rewrite Hd.
    unfold rd. rewrite HP. reflexivity.
  - apply div_zero. assumption.
  - apply div_zero. assumption.
  - apply div_zero. assumption.
Qed.

Lemma scalar_mul_div_witness :
  operator_mul 6 (Var 1) store_edge = Some (Point_xyz 0 0 0)%float
  /\ operator_div 6 (Var 1) store_edge = Some (Point_xyz infinity infinity infinity)
  /\ double_not_finite infinity = true
  /\ double_not_finite infinity = true
  /\ double_not_finite infinity = true.
Proof.
  destruct (scalar_mul_div store_edge 6 (Var 1) 1 1 1 0 eq_refl eq_refl)
    as (Hmul & Hdiv & Hzero).
  exact (conj Hmul (conj Hdiv (Hzero eq_refl))).
Defined.

(** C7 (amended).  [p + zero == p] for every [p] without a NaN
    coordinate, and [p - p == zero] for every [p] whose coordinates are
    finite, where [zero] is the default-constructed point. *)
Theorem additive_identity s p zero x y z :
  points s !! p = Some (Point_xyz x y z) ->
  points s !! zero = Some Point_default ->
  operator_add p zero s = Some (Point_xyz (x + 0) (y + 0) (z + 0))%float
  /\ operator_sub p p s = Some (Point_xyz (x - x) (y - y) (z - z))%float
  /\ (Point_has_nan (Point_xyz x y z) = false ->
      Point_eqb (Point_xyz (x + 0) (y + 0) (z + 0))%float (Point_xyz x y z) = true)
  /\ (Point_is_finite (Point_xyz x y z) = true ->
      Point_eqb (Point_xyz (x - x) (y - y) (z - z))%float Point_default = true).
Proof.
  intros HP HZ. repeat split.
  - unfold operator_add, rv_map3, rv_map2, rd.
    destruct (decide (zero = p)) as [->|Hne].
    + rewrite HP in HZ. injection HZ as -> -> ->. rewrite HP. reflexivity.
    + rewrite HP, HZ. reflexivity.
  - unfold operator_sub, rv_map3, rv_map2, rd. rewrite HP. reflexivity.
  - unfold Point_has_nan. cbn. intros H.
    apply orb_false_elim in H. destruct H as [Hxy Hz].
    apply orb_false_elim in Hxy. destruct Hxy as [Hx Hy].
    unfold Point_eqb, double_eqb. cbn.
    rewrite !add_zero_r by assumption. reflexivity.
  - unfold Point_is_finite. cbn. intros H.
    apply andb_prop in H. destruct H as [Hxy Hz].
    apply andb_prop in Hxy. destruct Hxy as [Hx Hy].
    unfold Point_eqb, double_eqb. cbn.
    rewrite !sub_diag by assumption. reflexivity.
Qed.

Lemma additive_identity_witness :
  operator_add 6 5 store_edge = Some (Point_xyz 1 1 1)%float
  /\ operator_sub 6 6 store_edge = Some (Point_xyz 0 0 0)%float
  /\ Point_eqb (Point_xyz 1 1 1)%float (Point_xyz 1 1 1)%float = true
  /\ Point_eqb (Point_xyz 0 0 0)%float Point_default = true.
Proof.
  destruct (additive_identity store_edge 6 5 1 1 1 eq_refl eq_refl)
    as (Hadd & Hsub & Hnan & Hfin).
  exact (conj Hadd (conj Hsub (conj (Hnan eq_refl) (Hfin eq_refl)))).
Defined.

(** [p - p] is not the zero point when [p] has an infinite coordinate, and
    [p + zero == p] fails when [p] has a NaN coordinate. *)
Lemma additive_identity_not_total :
  points store_edge !! 3%positive = Some (Point_xyz infinity 0 0)%float
  /\ operator_sub 3 3 store_edge = Some (Point_xyz nan 0 0)%float
  /\ Point_eqb (Point_xyz nan 0 0)%float Point_default = false
  /\ points store_edge !! 4%positive = Some (Point_xyz nan 0 0)%float
  /\ points store_edge !! 5%positive = Some Point_default
  /\ operator_add 4 5 store_edge = Some (Point_xyz nan 0 0)%float
  /\ Point_eqb (Point_xyz nan 0 0)%float (Point_xyz nan 0 0)%float = false.
Proof. repeat split; vm_compute; reflexivity. Qed.

(** The scenario of the specification:
    [Point(1,2,3) + Point(4,5,6) == Point(5,7,9)]. *)
Example operator_add_scenario :
  operator_add 1 2
    (Store {[ 1%positive := Point_xyz 1 2 3; 2%positive := Point_xyz 4 5 6 ]}%float ∅ ∅)
  = Some (Point_xyz 5 7 9)%float.
Proof. vm_compute. reflexivity. Qed.

(** ** Norms *)





(** The scenario of the specification: [Point(3,4,0).norm2() == 5.0]. *)
Example norm2_scenario :
  norm2 1 (Store {[ 1%positive := Point_xyz 3 4 0 ]}%float ∅ ∅) = Some 5%float.
Proof. vm_compute. reflexivity. Qed.

(** ** In-place operators *)

(** C8.  On [Point p(2,3,4); p *= p.x();] the code leaves [p] equal to
    [(4, 12, 16)], not to [(2*2, 3*2, 4*2)]: [d] is a reference to
    [p.xyz[0]], which the first assignment overwrites before the other two
    read it.  The binary [p * p.x()] does give [(4, 6, 8)].  In the same
    way [p /= p.x()] leaves [(1, 3, 4)]. *)
Theorem operator_mul_assign_aliased :
  points store_p234 !! 1%positive = Some (Point_xyz 2 3 4)%float
  /\ (d <- x_ref 1 ;; operator_mul_assign 1 d)%cmd store_p234
     = Returns 1%positive (set_point 1 (Point_xyz 4 12 16)%float store_p234)
  /\ (d <- x_ref 1 ;; eval (operator_mul 1 d))%cmd store_p234
     = Returns (Point_xyz 4 6 8)%float store_p234
  /\ (d <- x_ref 1 ;; operator_div_assign 1 d)%cmd store_p234
     = Returns 1%positive (set_point 1 (Point_xyz 1 3 4)%float store_p234).
Proof. repeat split; vm_compute; reflexivity. Qed.

(** The same for every receiver: with [d] bound to [p.xyz[0]], [p *= d]
    multiplies the second and third coordinates by the square of the first,
    and [p /= d] divides them by [x / x]. *)
Lemma operator_mul_assign_alias_x s this x y z :
  points s !! this = Some (Point_xyz x y z) ->
  operator_mul_assign this (Coord this 0) s
  = Returns this
      (set_point this (Point_xyz (x * x) (y * (x * x)) (z * (x * x)))%float s)
  /\ operator_div_assign this (Coord this 0) s
     = Returns this
         (set_point this (Point_xyz (x / x) (y / (x / x)) (z / (x / x)))%float s).
Proof.
  intros HP.
  unfold operator_mul_assign, operator_div_assign, mul_assign, div_assign,
    assign, bind, eval, write, rv_map2, rd, set_point, ret, Point_xyz in *.
  split.
  - repeat first [ progress cbn -[lookup insert] | rewrite lookup_insert_eq | rewrite HP ].
    rewrite !insert_insert_eq. reflexivity.
  - repeat first [ progress cbn -[lookup insert] | rewrite lookup_insert_eq | rewrite HP ].
    rewrite !insert_insert_eq. reflexivity.
Qed.

(** For the record: what the four in-place operators do when the scalar
    argument is not a reference to the first or second coordinate of the
    receiver. *)
Lemma in_place_operators s this p d x y z a b c dv :
  points s !! this = Some (Point_xyz x y z) ->
  points s !! p = Some (Point_xyz a b c) ->
  rd d s = Some dv ->
  d <> Coord this 0 -> d <> Coord this 1 ->
  operator_add_assign this p s
  = Returns this (set_point this (Point_xyz (x + a) (y + b) (z + c))%float s)
  /\ operator_sub_assign this p s
     = Returns this (set_point this (Point_xyz (x - a) (y - b) (z - c))%float s)
  /\ operator_mul_assign this d s
     = Returns this (set_point this (Point_xyz (x * dv) (y * dv) (z * dv))%float s)
  /\ operator_div_assign this d s
     = Returns this (set_point this (Point_xyz (x / dv) (y / dv) (z / dv))%float s).
Proof.
  intros HP HQ Hd H0 H1.
  split; [|split; [|split]].
  - apply operator_add_assign_spec; assumption.
  - apply operator_sub_assign_spec; assumption.
  - apply operator_mul_assign_spec; assumption.
  - apply operator_div_assign_spec; assumption.
Qed.

(** Chained mutation: [(p += q) += q]. *)
Example operator_add_assign_chained :
  (r <- operator_add_assign 1 2 ;; operator_add_assign r 2)%cmd store_axes
  = Returns 1%positive (set_point 1 (Point_xyz 1 2 0)%float store_axes).
Proof. vm_compute. reflexivity. Qed.

(** ** Indexed access *)

(** C9.  For [i] in 0, 1, 2 the read-only [p[i]] returns the [i]-th
    coordinate and the mutable [p[i]] returns a reference to it: writing
    through the reference changes that coordinate and no other.  For any
    other [i] neither form reports an error: the behaviour is undefined. *)
Theorem operator_index_unchecked s this x y z i :
  points s !! this = Some (Point_xyz x y z) ->
  (operator_index_const this 0 s = Some x
   /\ operator_index_const this 1 s = Some y
   /\ operator_index_const this 2 s = Some z)
  /\ (0 <= i <= 2 ->
      operator_index_ref this i s = Returns (Coord this i) s
      /\ forall v, exists s',
           write (Coord this i) v s = Returns tt s'
           /\ operator_index_const this i s' = Some v
           /\ (forall j, j <> i ->
                 operator_index_const this j s' = operator_index_const this j s)
           /\ same_except this s s')
  /\ (i < 0 \/ 2 < i ->
      operator_index_const this i s = None
      /\ operator_index_ref this i s = Undefined).
Proof.
  intros HP. unfold operator_index_const, operator_index_ref, bind, eval, ret, rd.
  rewrite HP. split; [|split].
  - repeat split.
  - intros Hi.
    assert (i = 0 \/ i = 1 \/ i = 2) as [-> | [-> | ->]] by lia.
    all: split; [reflexivity|].
    all: intros v; eexists; split; [unfold write; rewrite HP; reflexivity|].
    all: unfold set_point; cbn -[lookup insert]; rewrite lookup_insert_eq.
    all: split; [reflexivity|split].
    all: try (intros j Hj; destruct j as [|[[]|[]|]|]; try reflexivity; congruence).
    all: split; [|split; reflexivity].
    all: intros q Hq; cbn -[lookup insert]; apply lookup_insert_ne; congruence.
  - intros Hi. destruct i as [|[[]|[]|]|]; try lia; split; reflexivity.
Qed.

Lemma operator_index_unchecked_witness :
  (operator_index_const 1 0 store_p234 = Some 2%float
   /\ operator_index_const 1 1 store_p234 = Some 3%float
   /\ operator_index_const 1 2 store_p234 = Some 4%float)
  /\ (operator_index_ref 1 1 store_p234 = Returns (Coord 1 1) store_p234
      /\ forall v, exists s',
           write (Coord 1 1) v store_p234 = Returns tt s'
           /\ operator_index_const 1 1 s' = Some v
           /\ (forall j, j <> 1 ->
                 operator_index_const 1 j s' = operator_index_const 1 j store_p234)
           /\ same_except 1 store_p234 s')
  /\ operator_index_const 1 3 store_p234 = None
  /\ operator_index_ref 1 3 store_p234 = Undefined.
Proof.
  destruct (operator_index_unchecked store_p234 1 2 3 4 1 eq_refl) as (Hrd & Hin & _).
  destruct (operator_index_unchecked store_p234 1 2 3 4 3 eq_refl) as (_ & _ & Hout).
  exact (conj Hrd (conj (Hin ltac:(lia)) (Hout ltac:(lia)))).
Defined.

(** ** Frame *)

(** C10.  The binary operators and the metric operations return with the
    store as it was, so neither operand changes; [p += q], [p -= q] and
    [p.transform(m)] change nothing but the receiver [p]: every other
    point, every [double] and every matrix is as before. *)
Theorem operands_unchanged s this p d m P Q dv Mx :
  points s !! this = Some P ->
  points s !! p = Some Q ->
  rd d s = Some dv ->
  matrices s !! m = Some Mx ->
  ((exists v, eval (operator_add this p) s = Returns v s)
   /\ (exists v, eval (operator_sub this p) s = Returns v s)
   /\ (exists v, eval (operator_mul this d) s = Returns v s)
   /\ (exists v, eval (operator_div this d) s = Returns v s)
   /\ (exists v, eval (dot this p) s = Returns v s)
   /\ (exists v, eval (cross this p) s = Returns v s)
   /\ (exists v, eval (norm1 this) s = Returns v s)
   /\ (exists v, eval (norm2 this) s = Returns v s)
   /\ (exists v, eval (normInf this) s = Returns v s))
  /\ (exists s', operator_add_assign this p s = Returns this s' /\ same_except this s s')
  /\ (exists s', operator_sub_assign this p s = Returns this s' /\ same_except this s s')
  /\ (exists s', transform this m s = Returns this s' /\ same_except this s s').
Proof.
  intros HP HQ Hd HM.
  assert (Hframe : forall R, same_except this s (set_point this R s)).
  { intros R. split; [|split; reflexivity].
    intros q Hq. cbn -[lookup insert]. apply lookup_insert_ne. congruence. }
  destruct P as [[x y z]], Q as [[a b c]].
  destruct Mx as [[m00 m01 m02 m03] [m10 m11 m12 m13] [m20 m21 m22 m23] row3].
  split; [|split; [|split]].
  - assert (Hthis : forall j v, array3_at (Array3 x y z) j = Some v ->
                      rd (Coord this j) s = Some v)
      by (intros j v Hj; unfold rd; rewrite HP; exact Hj).
    assert (Hp : forall j v, array3_at (Array3 a b c) j = Some v ->
                   rd (Coord p j) s = Some v)
      by (intros j v Hj; unfold rd; rewrite HQ; exact Hj).
    unfold eval, operator_add, operator_sub, operator_mul, operator_div,
      dot, cross, norm1, norm2, normInf, rv_map, rv_map2, rv_map3.
    rewrite Hd.
    rewrite !(Hthis 0 x eq_refl), !(Hthis 1 y eq_refl), !(Hthis 2 z eq_refl).
    rewrite !(Hp 0 a eq_refl), !(Hp 1 b eq_refl), !(Hp 2 c eq_refl).
    repeat split; eexists; reflexivity.
  - eexists. split; [apply operator_add_assign_spec; eassumption|apply Hframe].
  - eexists. split; [apply operator_sub_assign_spec; eassumption|apply Hframe].
  - eexists. split; [eapply transform_spec; eassumption|apply Hframe].
Qed.

Lemma operands_unchanged_witness :
  ((exists v, eval (operator_add 6 2) store_edge = Returns v store_edge)
   /\ (exists v, eval (operator_sub 6 2) store_edge = Returns v store_edge)
   /\ (exists v, eval (operator_mul 6 (Var 2)) store_edge = Returns v store_edge)
   /\ (exists v, eval (operator_div 6 (Var 2)) store_edge = Returns v store_edge)
   /\ (exists v, eval (dot 6 2) store_edge = Returns v store_edge)
   /\ (exists v, eval (cross 6 2) store_edge = Returns v store_edge)
   /\ (exists v, eval (norm1 6) store_edge = Returns v store_edge)
   /\ (exists v, eval (norm2 6) store_edge = Returns v store_edge)
   /\ (exists v, eval (normInf 6) store_edge = Returns v store_edge))
  /\ (exists s', operator_add_assign 6 2 store_edge = Returns 6%positive s'
                 /\ same_except 6 store_edge s')
  /\ (exists s', operator_sub_assign 6 2 store_edge = Returns 6%positive s'
                 /\ same_except 6 store_edge s')
  /\ (exists s', transform 6 2 store_edge = Returns 6%positive s'
                 /\ same_except 6 store_edge s').
Proof.
  exact (operands_unchanged store_edge 6 2 (Var 2) 2
           (Point_xyz 1 1 1)%float (Point_xyz 0x1p600 0 0)%float 2%float
           (translation4 2 0 0)%float eq_refl eq_refl eq_refl eq_refl).
Defined.

(** * Further facts about binary64 arithmetic *)

Section Binary64More.

Lemma is_nan_true a : is_nan a = true <-> Prim2SF a = S754_nan.
Proof.
  destruct (is_nan a) eqn:E.
  - split; [intros _|reflexivity].
    destruct (Prim2SF a) eqn:Ea; try reflexivity;
      (assert (is_nan a = false) by (apply is_nan_spec; rewrite Ea; discriminate));
      congruence.
  - apply is_nan_spec in E. split; [discriminate|contradiction].
Qed.

Lemma SFmul_comm a b : SF64mul a b = SF64mul b a.
Proof.
  destruct a as [sa|sa| |sa ma ea], b as [sb|sb| |sb mb eb]; cbn;
    rewrite ?(xorb_comm sa sb); try reflexivity.
  rewrite (Pos.mul_comm ma mb), (Z.add_comm ea eb). reflexivity.
Qed.

Lemma mul_comm a b : (a * b)%float = (b * a)%float.
Proof. apply Prim2SF_inj. rewrite !mul_spec. apply SFmul_comm. Qed.

Lemma SFadd_comm a b : SF64add a b = SF64add b a.
Proof.
  destruct a as [sa|sa| |sa ma ea], b as [sb|sb| |sb mb eb]; cbn;
    try reflexivity; try (destruct sa, sb; reflexivity).
  rewrite (Z.min_comm ea eb), Z.add_comm. reflexivity.
Qed.

Lemma add_comm a b : (a + b)%float = (b + a)%float.
Proof. apply Prim2SF_inj. rewrite !add_spec. apply SFadd_comm. Qed.

Lemma mul_one_r_all a : (a * 1)%float = a.
Proof.
  apply Prim2SF_inj. rewrite mul_spec, SF1. pose proof (Prim2SF_valid a) as Hv.
  destruct (Prim2SF a) as [s|s| |s m e].
  - cbn. rewrite xorb_false_r. reflexivity.
  - cbn. rewrite xorb_false_r. reflexivity.
  - reflexivity.
  - apply SFmul_one_r, Hv.
Qed.

Lemma sub_zero_r a : (a - 0)%float = a.
Proof.
  apply Prim2SF_inj. rewrite sub_spec, SF0.
  destruct (Prim2SF a) as [[]|[]| |s m e]; reflexivity.
Qed.


Lemma binary_round_aux_opp s m e l :
  binary_round_aux prec emax (negb s) m e l
  = SFopp (binary_round_aux prec emax s m e l).
Proof.
  unfold binary_round_aux.
  destruct (shr_fexp prec emax m e l) as [r1 e1].
  destruct (shr_fexp prec emax _ e1 loc_Exact) as [r2 e2].
  destruct (shr_m r2); try reflexivity.
  destruct (e2 <=? emax - prec); reflexivity.
Qed.

Lemma binary_normalize_opp d e :
  SFagree (binary_normalize prec emax (- d) e false)
          (SFopp (binary_normalize prec emax d e false)).
Proof.
  destruct d as [|p|p].
  - right. split; exact I.
  - left. change (- Z.pos p) with (Z.neg p). cbn [binary_normalize].
    unfold binary_round. destruct (shl_align _ _ _) as [mz ez].
    apply (binary_round_aux_opp false).
  - left. change (- Z.neg p) with (Z.pos p). cbn [binary_normalize].
    unfold binary_round. destruct (shl_align _ _ _) as [mz ez].
    rewrite (binary_round_aux_opp false).
    destruct (binary_round_aux prec emax false (Z.pos mz) ez loc_Exact) as [[]|[]| |[] ? ?];
      reflexivity.
Qed.

Lemma SFsub_antisym a b : SFagree (SF64sub b a) (SFopp (SF64sub a b)).
Proof.
  destruct a as [sa|sa| |sa ma ea], b as [sb|sb| |sb mb eb];
    try (left; reflexivity);
    try (destruct sa, sb; (left; reflexivity) || (right; split; exact I)).
  unfold SF64sub, SFsub. rewrite (Z.min_comm eb ea).
  set (A := cond_Zopp sa _). set (B := cond_Zopp sb _).
  replace (B - A) with (- (A - B)) by lia.
  apply binary_normalize_opp.
Qed.

Lemma SFagree_eqb_nan a b : b <> S754_nan -> SFagree a b -> SFeqb a b = true.
Proof.
  intros Hb [->|[Ha Hz]].
  - apply SFeqb_refl, Hb.
  - destruct a, b; cbn in *; try contradiction. reflexivity.
Qed.

Lemma sub_antisym a b :
  is_nan (a - b) = false -> (b - a =? - (a - b))%float = true.
Proof.
  intros H. apply is_nan_spec in H. rewrite sub_spec in H.
  rewrite FloatAxioms.eqb_spec, opp_spec, !sub_spec.
  apply SFagree_eqb_nan; [|apply SFsub_antisym].
  destruct (SF64sub (Prim2SF a) (Prim2SF b)); cbn; congruence.
Qed.


(** *** Order on non-negative values *)

Ltac cmp_cases :=
  repeat match goal with
    | |- context [Pos.compare_cont Eq ?x ?y] =>
        change (Pos.compare_cont Eq x y) with (Pos.compare x y)
    | H : context [Pos.compare_cont Eq ?x ?y] |- _ =>
        change (Pos.compare_cont Eq x y) with (Pos.compare x y) in H
    end;
  repeat match goal with
    | |- context [Z.compare ?x ?y] => destruct (Z.compare_spec x y)
    | H : context [Z.compare ?x ?y] |- _ => destruct (Z.compare_spec x y)
    | |- context [Pos.compare ?x ?y] => destruct (Pos.compare_spec x y)
    | H : context [Pos.compare ?x ?y] |- _ => destruct (Pos.compare_spec x y)
    end;
  subst; try reflexivity; try discriminate; try lia.

Lemma SFleb_nonneg_total a b :
  SFnonneg a -> SFnonneg b -> SFltb a b = false -> SFleb b a = true.
Proof.
  destruct a as [sa|sa| |sa ma ea], b as [sb|sb| |sb mb eb];
    unfold SFltb, SFleb; cbn; intros Ha Hb H; subst;
    try contradiction; try discriminate; try reflexivity.
  cmp_cases.
Qed.

Lemma SFleb_nonneg_trans a b c :
  SFnonneg a -> SFnonneg b -> SFnonneg c ->
  SFleb a b = true -> SFleb b c = true -> SFleb a c = true.
Proof.
  destruct a as [sa|sa| |sa ma ea], b as [sb|sb| |sb mb eb], c as [sc|sc| |sc mc ec];
    unfold SFleb; cbn; intros Ha Hb Hc H1 H2; subst;
    try contradiction; try discriminate; try reflexivity.
  cmp_cases.
Qed.

Lemma SFleb_nonneg_refl a : SFnonneg a -> SFleb a a = true.
Proof.
  destruct a as [sa|sa| |sa ma ea]; unfold SFleb; cbn; intros Ha; subst;
    try contradiction; try reflexivity.
  cmp_cases.
Qed.

Lemma SFltb_leb a b : SFltb a b = true -> SFleb a b = true.
Proof. unfold SFltb, SFleb. destruct (SFcompare a b) as [[]|]; congruence. Qed.

Lemma SFabs_nonneg a : a <> S754_nan -> SFnonneg (SFabs a).
Proof. destruct a; cbn; congruence || reflexivity || exact I. Qed.

Lemma SFnonneg_not_nan a : SFnonneg a -> a <> S754_nan.
Proof. destruct a; cbn; congruence || contradiction. Qed.

Lemma is_nan_abs a : is_nan (abs a) = is_nan a.
Proof.
  destruct (is_nan a) eqn:E.
  - apply is_nan_true in E. apply is_nan_true. rewrite abs_spec, E. reflexivity.
  - apply is_nan_spec in E. apply is_nan_spec. rewrite abs_spec.
    apply SFnonneg_not_nan, SFabs_nonneg, E.
Qed.


(** *** Where NaN can and cannot come from *)

Lemma binary_round_aux_not_nan s m e l :
  0 <= m -> binary_round_aux prec emax s m e l <> S754_nan.
Proof.
  intros Hm. pose proof (binary_round_aux_nonneg m e l Hm) as H.
  destruct s.
  - rewrite (binary_round_aux_opp false).
    destruct (binary_round_aux prec emax false m e l); cbn in *; congruence || contradiction.
  - apply SFnonneg_not_nan, H.
Qed.

Lemma binary_normalize_not_nan d e : binary_normalize prec emax d e false <> S754_nan.
Proof.
  destruct d as [|p|p]; cbn [binary_normalize]; [discriminate| |];
    unfold binary_round; destruct (shl_align _ _ _) as [mz ez];
    apply binary_round_aux_not_nan; lia.
Qed.

Lemma SFadd_fin_not_nan a t : SFfin a -> t <> S754_nan -> SF64add a t <> S754_nan.
Proof.
  destruct a as [sa|sa| |sa ma ea], t as [st|st| |st mt et]; cbn [SFfin];
    intros Ha Ht; try contradiction; try congruence; try discriminate.
  - destruct sa, st; discriminate.
  - apply binary_normalize_not_nan.
Qed.

Lemma SFadd_agree_l a b t :
  SFfin b -> t <> S754_nan -> SFagree a b -> SFeqb (SF64add a t) (SF64add b t) = true.
Proof.
  intros Hb Ht [->|[Ha Hz]].
  - apply SFeqb_refl, SFadd_fin_not_nan; assumption.
  - destruct a as [sa| | |], b as [sb| | |]; cbn in Ha, Hz; try contradiction.
    destruct t as [st|st| |st mt et]; try congruence.
    + destruct sa, sb, st; reflexivity.
    + cbn. destruct st; reflexivity.
    + cbn [SF64add SFadd]. apply SFeqb_refl. discriminate.
Qed.

Lemma translation_row0 a b c t :
  is_finite a = true -> is_finite b = true -> is_finite c = true ->
  is_nan t = false ->
  (a * 1 + b * 0 + c * 0 + t =? a + t)%float = true.
Proof.
  intros Ha Hb Hc Ht. rewrite (mul_one_r a Ha).
  apply is_finite_spec in Ha, Hb, Hc. apply is_nan_spec in Ht.
  rewrite FloatAxioms.eqb_spec, !add_spec, !mul_spec, SF0.
  apply SFadd_agree_l; [exact Ha|exact Ht|].
  apply SFadd_zero_r; [exact Ha| |apply SFmul_zero_r, Hc].
  apply SFadd_zero_r; [exact Ha| |apply SFmul_zero_r, Hb].
  left. reflexivity.
Qed.

Lemma translation_row1 a b c t :
  is_finite a = true -> is_finite b = true -> is_finite c = true ->
  is_nan t = false ->
  (a * 0 + b * 1 + c * 0 + t =? b + t)%float = true.
Proof.
  intros Ha Hb Hc Ht. rewrite (mul_one_r b Hb).
  apply is_finite_spec in Ha, Hb, Hc. apply is_nan_spec in Ht.
  rewrite FloatAxioms.eqb_spec, !add_spec, !mul_spec, SF0.
  apply SFadd_agree_l; [exact Hb|exact Ht|].
  apply SFadd_zero_r; [exact Hb| |apply SFmul_zero_r, Hc].
  apply SFadd_zero_l; [exact Hb| |apply SFmul_zero_r, Ha].
  left. reflexivity.
Qed.

Lemma translation_row2 a b c t :
  is_finite a = true -> is_finite b = true -> is_finite c = true ->
  is_nan t = false ->
  (a * 0 + b * 0 + c * 1 + t =? c + t)%float = true.
Proof.
  intros Ha Hb Hc Ht. rewrite (mul_one_r c Hc).
  apply is_finite_spec in Ha, Hb, Hc. apply is_nan_spec in Ht.
  rewrite FloatAxioms.eqb_spec, !add_spec, !mul_spec, SF0.
  apply SFadd_agree_l; [exact Hc|exact Ht|].
  apply SFadd_zero_l; [exact Hc|left; reflexivity|].
  apply SFadd_zero_zero; apply SFmul_zero_r; assumption.
Qed.

Lemma SFadd_nan_iff a b :
  SFnonneg a \/ a = S754_nan -> SFnonneg b \/ b = S754_nan ->
  (SF64add a b = S754_nan <-> a = S754_nan \/ b = S754_nan).
Proof.
  intros [Ha| ->] [Hb| ->].
  - pose proof (SFnonneg_not_nan _ (SFadd_nonneg a b Ha Hb)) as H.
    apply SFnonneg_not_nan in Ha, Hb. tauto.
  - destruct a; cbn; tauto.
  - cbn. tauto.
  - cbn. tauto.
Qed.

Lemma SFmul_self_shape a : SFnonneg (SF64mul a a) \/ SF64mul a a = S754_nan.
Proof.
  destruct a as [s|s| |s m e] eqn:E; [left|left|right; reflexivity|left];
    apply SFmul_self_nonneg; discriminate.
Qed.

Lemma SFmul_self_nan a : SF64mul a a = S754_nan <-> a = S754_nan.
Proof.
  split; [|intros ->; reflexivity].
  intros H. destruct a as [s|s| |s m e] eqn:E; try reflexivity;
    exfalso; revert H; apply SFnonneg_not_nan, SFmul_self_nonneg; discriminate.
Qed.

Lemma SFabs_shape a : SFnonneg (SFabs a) \/ SFabs a = S754_nan.
Proof. destruct a; cbn; auto. Qed.

Lemma SFabs_nan a : SFabs a = S754_nan <-> a = S754_nan.
Proof. destruct a; cbn; split; congruence. Qed.

Lemma SFsqrt_nan_nonneg a : SFnonneg a \/ a = S754_nan ->
  (SF64sqrt a = S754_nan <-> a = S754_nan).
Proof.
  intros [Ha| ->]; [|cbn; tauto].
  pose proof (SFnonneg_not_nan _ (SFsqrt_nonneg a Ha)).
  apply SFnonneg_not_nan in Ha. tauto.
Qed.

Lemma bool_eq_iff (b c : bool) : (b = true <-> c = true) -> b = c.
Proof. destruct b, c; intuition congruence. Qed.

Lemma is_nan_orb3 a b c :
  is_nan a || is_nan b || is_nan c = true
  <-> Prim2SF a = S754_nan \/ Prim2SF b = S754_nan \/ Prim2SF c = S754_nan.
Proof. rewrite !orb_true_iff, !is_nan_true. tauto. Qed.

Lemma SFadd_shape a b :
  SFnonneg a \/ a = S754_nan -> SFnonneg b \/ b = S754_nan ->
  SFnonneg (SF64add a b) \/ SF64add a b = S754_nan.
Proof.
  intros [Ha| ->] [Hb| ->].
  - left. apply SFadd_nonneg; assumption.
  - right. destruct a; reflexivity.
  - right. reflexivity.
  - right. reflexivity.
Qed.

Lemma is_nan_sum_abs a b c :
  is_nan (abs a + abs b + abs c)%float = is_nan a || is_nan b || is_nan c.
Proof.
  apply bool_eq_iff. rewrite is_nan_orb3, is_nan_true, !add_spec, !abs_spec.
  pose proof (SFabs_shape (Prim2SF a)) as Sa. pose proof (SFabs_shape (Prim2SF b)) as Sb.
  pose proof (SFabs_shape (Prim2SF c)) as Sc.
  rewrite SFadd_nan_iff; [|apply SFadd_shape; assumption|exact Sc].
  rewrite SFadd_nan_iff by assumption. rewrite !SFabs_nan. tauto.
Qed.

Lemma is_nan_sqrt_sum_squares a b c :
  is_nan (PrimFloat.sqrt (a * a + b * b + c * c))%float = is_nan a || is_nan b || is_nan c.
Proof.
  apply bool_eq_iff.
  rewrite is_nan_orb3, is_nan_true, sqrt_spec, !add_spec, !mul_spec.
  pose proof (SFmul_self_shape (Prim2SF a)) as Sa.
  pose proof (SFmul_self_shape (Prim2SF b)) as Sb.
  pose proof (SFmul_self_shape (Prim2SF c)) as Sc.
  rewrite SFsqrt_nan_nonneg by (repeat apply SFadd_shape; assumption).
  rewrite SFadd_nan_iff; [|apply SFadd_shape; assumption|exact Sc].
  rewrite SFadd_nan_iff by assumption. rewrite !SFmul_self_nan. tauto.
Qed.

Lemma ltb_nan_l a b : is_nan a = true -> (a <? b)%float = false.
Proof.
  intros H. apply is_nan_true in H. rewrite ltb_spec, H. reflexivity.
Qed.

Lemma ltb_nan_r a b : is_nan b = true -> (a <? b)%float = false.
Proof.
  intros H. apply is_nan_true in H. rewrite ltb_spec, H.
  destruct (Prim2SF a); reflexivity.
Qed.

(** [std::max] keeps its first argument whenever a NaN is involved. *)
Lemma is_nan_std_max a b : is_nan (std_max a b) = is_nan a.
Proof.
  unfold std_max. destruct (a <? b)%float eqn:E; [|reflexivity].
  destruct (is_nan a) eqn:Ea; [rewrite ltb_nan_l in E by assumption; discriminate|].
  destruct (is_nan b) eqn:Eb; [rewrite ltb_nan_r in E by assumption; discriminate|].
  reflexivity.
Qed.

Lemma std_max_upper a b :
  is_nan a = false -> is_nan b = false ->
  (abs a <=? std_max (abs a) (abs b))%float = true
  /\ (abs b <=? std_max (abs a) (abs b))%float = true.
Proof.
  intros Ha Hb. apply is_nan_spec in Ha, Hb.
  pose proof (SFabs_nonneg _ Ha) as Na. pose proof (SFabs_nonneg _ Hb) as Nb.
  unfold std_max. destruct (abs a <? abs b)%float eqn:E;
    rewrite ltb_spec in E; rewrite !leb_spec, !abs_spec in *.
  - split; [apply SFltb_leb, E|apply SFleb_nonneg_refl, Nb].
  - split; [apply SFleb_nonneg_refl, Na|apply SFleb_nonneg_total; assumption].
Qed.

Lemma leb_abs_trans a b c :
  is_nan a = false -> is_nan b = false -> is_nan c = false ->
  (abs a <=? abs b)%float = true -> (abs b <=? abs c)%float = true ->
  (abs a <=? abs c)%float = true.
Proof.
  intros Ha Hb Hc. apply is_nan_spec in Ha, Hb, Hc.
  rewrite !leb_spec, !abs_spec.
  apply SFleb_nonneg_trans; apply SFabs_nonneg; assumption.
Qed.

Lemma abs_abs a : abs (abs a) = abs a.
Proof.
  apply Prim2SF_inj. rewrite !abs_spec. destruct (Prim2SF a); reflexivity.
Qed.

Lemma leb_zero_abs a : is_nan a = false -> (0 <=? abs a)%float = true.
Proof.
  intros Ha. apply is_nan_spec in Ha. rewrite leb_spec, abs_spec, SF0.
  apply SFleb_zero_nonneg, SFabs_nonneg, Ha.
Qed.

Lemma sum_abs_nonneg a b c :
  is_nan a = false -> is_nan b = false -> is_nan c = false ->
  (0 <=? abs a + abs b + abs c)%float = true.
Proof.
  intros Ha Hb Hc. apply is_nan_spec in Ha, Hb, Hc.
  rewrite leb_spec, !add_spec, !abs_spec, SF0.
  apply SFleb_zero_nonneg. repeat apply SFadd_nonneg; apply SFabs_nonneg; assumption.
Qed.

Lemma sum_squares_nonneg a b c :
  is_nan a = false -> is_nan b = false -> is_nan c = false ->
  (0 <=? a * a + b * b + c * c)%float = true.
Proof.
  intros Ha Hb Hc. apply is_nan_spec in Ha, Hb, Hc.
  rewrite leb_spec, !add_spec, !mul_spec, SF0.
  apply SFleb_zero_nonneg. repeat apply SFadd_nonneg; apply SFmul_self_nonneg; assumption.
Qed.

Lemma std_max3_upper a b c :
  is_nan a = false -> is_nan b = false -> is_nan c = false ->
  (abs a <=? std_max (abs a) (std_max (abs b) (abs c)))%float = true
  /\ (abs b <=? std_max (abs a) (std_max (abs b) (abs c)))%float = true
  /\ (abs c <=? std_max (abs a) (std_max (abs b) (abs c)))%float = true
  /\ (std_max (abs a) (std_max (abs b) (abs c)) = abs a
      \/ std_max (abs a) (std_max (abs b) (abs c)) = abs b
      \/ std_max (abs a) (std_max (abs b) (abs c)) = abs c).
Proof.
  intros Ha Hb Hc.
  destruct (std_max_upper b c Hb Hc) as [Hbi Hci].
  assert (Hw : exists w, is_nan w = false /\ std_max (abs b) (abs c) = abs w
                         /\ (w = b \/ w = c)).
  { unfold std_max. destruct (abs b <? abs c)%float; eauto. }
  destruct Hw as (w & Hw & Ew & Hbc). rewrite Ew in *.
  destruct (std_max_upper a w Ha Hw) as [Han Hwn].
  assert (Hn : exists v, is_nan v = false /\ std_max (abs a) (abs w) = abs v
                         /\ (v = a \/ v = w)).
  { unfold std_max. destruct (abs a <? abs w)%float; eauto. }
  destruct Hn as (v & Hv & Ev & Haw). rewrite Ev in *.
  split; [exact Han|split; [|split]].
  - apply (leb_abs_trans b w v); assumption.
  - apply (leb_abs_trans c w v); assumption.
  - destruct Haw as [->| ->]; [auto|]. destruct Hbc as [->| ->]; auto.
Qed.

Lemma mul_zero_r a d :
  is_finite a = true -> (d =? 0)%float = true -> (a * d =? 0)%float = true.
Proof.
  intros Ha Hd. apply is_finite_spec in Ha.
  rewrite FloatAxioms.eqb_spec, SF0 in Hd.
  rewrite FloatAxioms.eqb_spec, mul_spec, SF0.
  destruct (Prim2SF d) as [sd|[]| |[] md ed]; try discriminate Hd.
  destruct (Prim2SF a) as [sa| | |sa ma ea]; cbn in Ha; try contradiction; reflexivity.
Qed.

End Binary64More.

(** * Further properties of the methods *)

Section MoreMethods.

Ltac run_step :=
  first
    [ progress cbn -[lookup insert]
    | rewrite lookup_insert_eq
    | rewrite lookup_insert_ne by congruence
    | match goal with
      | H : ?l = Some _ |- context [?l] => rewrite H
      end ].

Ltac run :=
  unfold operator_add_assign, operator_sub_assign, operator_mul_assign,
    operator_div_assign, transform, add_assign, sub_assign, mul_assign, div_assign,
    operator_index_ref, operator_index_const, x_ref, y_ref, z_ref, alive,
    x_const, y_const, z_const,
    assign, bind, eval, write, rv_map, rv_map2, rv_map3, rv_ret, rd, set_point, ret,
    Point_xyz, Point_array, Point_default in *;
  repeat run_step.

Lemma rd_Coord s p x y z :
  points s !! p = Some (Point_xyz x y z) ->
  rd (Coord p 0) s = Some x /\ rd (Coord p 1) s = Some y /\ rd (Coord p 2) s = Some z.
Proof. intros HP. unfold rd. rewrite HP. repeat split. Qed.

Lemma set_point_id s this P : points s !! this = Some P -> set_point this P s = s.
Proof.
  intros HP. destruct s as [pts sc ms]. unfold set_point. cbn in *.
  rewrite insert_id by assumption. reflexivity.
Qed.

Lemma same_except_set_point this R s : same_except this s (set_point this R s).
Proof.
  split; [|split; reflexivity].
  intros q Hq. cbn -[lookup insert]. apply lookup_insert_ne. congruence.
Qed.

Ltac reads HP HQ :=
  let P0 := fresh "P0" in let P1 := fresh "P1" in let P2 := fresh "P2" in
  let Q0 := fresh "Q0" in let Q1 := fresh "Q1" in let Q2 := fresh "Q2" in
  destruct (rd_Coord _ _ _ _ _ HP) as (P0 & P1 & P2);
  destruct (rd_Coord _ _ _ _ _ HQ) as (Q0 & Q1 & Q2);
  unfold dot, cross, norm1, norm2, normInf, operator_add, operator_sub,
    operator_mul, operator_div, Point_from_to, rv_map, rv_map2, rv_map3;
  rewrite ?P0, ?P1, ?P2, ?Q0, ?Q1, ?Q2.

(** ** Dot product *)

(** X1.  [p.dot(q)] is [p.x*q.x + p.y*q.y + p.z*q.z], and [q.dot(p)]
    returns the very same [double], for all coordinates. *)
Theorem dot_symmetric s p q px py pz qx qy qz :
  points s !! p = Some (Point_xyz px py pz) ->
  points s !! q = Some (Point_xyz qx qy qz) ->
  dot p q s = Some (px * qx + py * qy + pz * qz)%float
  /\ dot q p s = dot p q s.
Proof.
  intros HP HQ. reads HP HQ.
  rewrite (mul_comm qx px), (mul_comm qy py), (mul_comm qz pz). split; reflexivity.
Qed.

Lemma dot_symmetric_witness :
  dot 1 2 store_more = Some (1 * 4 + 2 * 5 + 3 * 6)%float
  /\ dot 2 1 store_more = dot 1 2 store_more.
Proof.
  exact (dot_symmetric store_more 1 2 1 2 3 4 5 6 eq_refl eq_refl).
Defined.

(** X2.  [p.norm2()] is the square root of [p.dot(p)], the same [double]
    and not only up to rounding; and [p.dot(p)] is never negative when no
    coordinate of [p] is NaN. *)
Theorem dot_self_norm2 s p x y z :
  points s !! p = Some (Point_xyz x y z) ->
  exists d,
    dot p p s = Some d
    /\ norm2 p s = Some (std_sqrt d)
    /\ (Point_has_nan (Point_xyz x y z) = false -> (0 <=? d)%float = true).
Proof.
  intros HP. exists (x * x + y * y + z * z)%float. reads HP HP.
  split; [reflexivity|split; [reflexivity|]].
  unfold Point_has_nan. cbn. intros H.
  apply orb_false_elim in H. destruct H as [Hxy Hz].
  apply orb_false_elim in Hxy. destruct Hxy as [Hx Hy].
  apply sum_squares_nonneg; assumption.
Qed.

Lemma dot_self_norm2_witness :
  exists d,
    dot 1 1 store_more = Some d
    /\ norm2 1 store_more = Some (std_sqrt d)
    /\ (0 <=? d)%float = true.
Proof.
  destruct (dot_self_norm2 store_more 1 1 2 3 eq_refl) as (d & Hd & Hn & Hs).
  exists d. exact (conj Hd (conj Hn (Hs eq_refl))).
Defined.

(** ** Commutativity and antisymmetry *)

(** X3.  [p + q] and [q + p] return the same point, whatever the
    coordinates. *)
Theorem operator_add_commutative s p q px py pz qx qy qz :
  points s !! p = Some (Point_xyz px py pz) ->
  points s !! q = Some (Point_xyz qx qy qz) ->
  operator_add p q s = Some (Point_xyz (px + qx) (py + qy) (pz + qz))%float
  /\ operator_add q p s = operator_add p q s.
Proof.
  intros HP HQ. reads HP HQ.
  rewrite (add_comm qx px), (add_comm qy py), (add_comm qz pz). split; reflexivity.
Qed.

Lemma operator_add_commutative_witness :
  operator_add 1 2 store_more = Some (Point_xyz 5 7 9)%float
  /\ operator_add 2 1 store_more = operator_add 1 2 store_more.
Proof.
  exact (operator_add_commutative store_more 1 2 1 2 3 4 5 6 eq_refl eq_refl).
Defined.

(** X4.  [q - p] is the opposite of [p - q]: when no coordinate of
    [p - q] is NaN, each coordinate of [q - p] compares equal to the negated
    coordinate of [p - q]. *)
Theorem operator_sub_antisymmetric s p q px py pz qx qy qz :
  points s !! p = Some (Point_xyz px py pz) ->
  points s !! q = Some (Point_xyz qx qy qz) ->
  exists U V,
    operator_sub p q s = Some U
    /\ operator_sub q p s = Some V
    /\ (Point_has_nan U = false -> Point_eqb V (Point_opp U) = true).
Proof.
  intros HP HQ.
  exists (Point_xyz (px - qx) (py - qy) (pz - qz))%float,
         (Point_xyz (qx - px) (qy - py) (qz - pz))%float.
  reads HP HQ. split; [reflexivity|split; [reflexivity|]].
  unfold Point_has_nan, Point_eqb, Point_opp, double_eqb. cbn. intros H.
  apply orb_false_elim in H. destruct H as [Hxy Hz].
  apply orb_false_elim in Hxy. destruct Hxy as [Hx Hy].
  rewrite !sub_antisym by assumption. reflexivity.
Qed.

Lemma operator_sub_antisymmetric_witness :
  exists U V,
    operator_sub 1 2 store_more = Some U
    /\ operator_sub 2 1 store_more = Some V
    /\ Point_eqb V (Point_opp U) = true.
Proof.
  destruct (operator_sub_antisymmetric store_more 1 2 1 2 3 4 5 6 eq_refl eq_refl)
    as (U & V & HU & HV & H).
  exists U, V. split; [exact HU|split; [exact HV|]].
  apply H. injection HU as <-. reflexivity.
Defined.





Example cross_self_overflow :
  cross 4 4 store_more = Some (Point_xyz 0 0 nan)%float.
Proof. vm_compute. reflexivity. Qed.

(** ** Neutral scalars and the zero point *)

Lemma mul_assign_one s this d i c P :
  points s !! this = Some P ->
  rd (Coord this i) s = Some c ->
  array3_set (xyz P) i c = Some (xyz P) ->
  rd d s = Some 1%float ->
  mul_assign (Coord this i) (rd d) s = Returns tt s.
Proof.
  intros HP Hc Hset Hd.
  unfold mul_assign, assign, bind, eval, rv_map2. rewrite Hc, Hd, mul_one_r_all.
  unfold write. rewrite HP, Hset. destruct P as [a]. cbn [xyz].
  rewrite set_point_id by assumption. reflexivity.
Qed.

(** X7.  Scaling by a [double] equal to 1 returns exactly [p], for every
    [p] (also with infinite, NaN or negative-zero coordinates), and
    [p *= d] then leaves the store as it was, whatever [d] refers to. *)
Theorem scale_by_one s this d P :
  points s !! this = Some P ->
  rd d s = Some 1%float ->
  operator_mul this d s = Some P
  /\ operator_mul_assign this d s = Returns this s.
Proof.
  intros HP Hd. destruct P as [[x y z]].
  destruct (rd_Coord s this x y z HP) as (H0 & H1 & H2). split.
  - unfold operator_mul, rv_map3, rv_map2. rewrite H0, H1, H2, Hd.
    rewrite !mul_one_r_all. reflexivity.
  - unfold operator_mul_assign, bind.
    rewrite (mul_assign_one s this d 0 x _ HP H0 eq_refl Hd).
    rewrite (mul_assign_one s this d 1 y _ HP H1 eq_refl Hd).
    rewrite (mul_assign_one s this d 2 z _ HP H2 eq_refl Hd).
    reflexivity.
Qed.

Lemma scale_by_one_witness :
  operator_mul 3 (Var 1) store_more = Some (Point_xyz 1 nan 100)%float
  /\ operator_mul_assign 3 (Var 1) store_more = Returns 3%positive store_more.
Proof.
  exact (scale_by_one store_more 3 (Var 1) (Point_xyz 1 nan 100)%float eq_refl eq_refl).
Defined.

(** X8.  Subtracting the zero point returns exactly [p], for every [p],
    and [p -= zero] leaves the store as it was. *)
Theorem subtract_zero s p zero P :
  points s !! p = Some P ->
  points s !! zero = Some Point_default ->
  operator_sub p zero s = Some P
  /\ operator_sub_assign p zero s = Returns p s.
Proof.
  intros HP HZ. destruct P as [[x y z]]. split.
  - reads HP HZ. rewrite !sub_zero_r. reflexivity.
  - rewrite (operator_sub_assign_spec s p zero x y z 0 0 0 HP HZ).
    rewrite !sub_zero_r. unfold Point_xyz.
    rewrite set_point_id by assumption. reflexivity.
Qed.

Lemma subtract_zero_witness :
  operator_sub 3 5 store_more = Some (Point_xyz 1 nan 100)%float
  /\ operator_sub_assign 3 5 store_more = Returns 3%positive store_more.
Proof.
  exact (subtract_zero store_more 3 5 (Point_xyz 1 nan 100)%float eq_refl eq_refl).
Defined.

(** X9.  Scaling a point with finite coordinates by a [double] that
    compares equal to zero gives a point that compares equal to the zero
    point. *)
Theorem scale_by_zero s this d x y z dv :
  points s !! this = Some (Point_xyz x y z) ->
  rd d s = Some dv ->
  double_eqb dv 0 = true ->
  Point_is_finite (Point_xyz x y z) = true ->
  exists R, operator_mul this d s = Some R /\ Point_eqb R Point_default = true.
Proof.
  intros HP Hd Hz Hfin. exists (Point_xyz (x * dv) (y * dv) (z * dv))%float.
  destruct (rd_Coord s this x y z HP) as (H0 & H1 & H2). split.
  - unfold operator_mul, rv_map3, rv_map2. rewrite H0, H1, H2, Hd. reflexivity.
  - unfold Point_is_finite in Hfin. cbn in Hfin.
    apply andb_prop in Hfin. destruct Hfin as [Hxy Hfz].
    apply andb_prop in Hxy. destruct Hxy as [Hfx Hfy].
    unfold Point_eqb, double_eqb in *. cbn.
    rewrite !mul_zero_r by assumption. reflexivity.
Qed.

Lemma scale_by_zero_witness :
  exists R, operator_mul 1 (Var 3) store_more = Some R
            /\ Point_eqb R Point_default = true.
Proof.
  exact (scale_by_zero store_more 1 (Var 3) 1 2 3 0 eq_refl eq_refl eq_refl eq_refl).
Defined.

(** X10.  [p -= p] is harmless although the argument is the receiver: it
    leaves a point that compares equal to the zero point whenever the
    coordinates of [p] are finite. *)
Theorem operator_sub_assign_self s p x y z :
  points s !! p = Some (Point_xyz x y z) ->
  Point_is_finite (Point_xyz x y z) = true ->
  exists R,
    operator_sub_assign p p s = Returns p (set_point p R s)
    /\ Point_eqb R Point_default = true.
Proof.
  intros HP Hfin. exists (Point_xyz (x - x) (y - y) (z - z))%float. split.
  - apply operator_sub_assign_spec; assumption.
  - unfold Point_is_finite in Hfin. cbn in Hfin.
    apply andb_prop in Hfin. destruct Hfin as [Hxy Hfz].
    apply andb_prop in Hxy. destruct Hxy as [Hfx Hfy].
    unfold Point_eqb, double_eqb. cbn.
    rewrite !sub_diag by assumption. reflexivity.
Qed.

Lemma operator_sub_assign_self_witness :
  exists R,
    operator_sub_assign 1 1 store_more = Returns 1%positive (set_point 1 R store_more)
    /\ Point_eqb R Point_default = true.
Proof.
  exact (operator_sub_assign_self store_more 1 1 2 3 eq_refl eq_refl).
Defined.

(** ** Translation *)

(** X11.  Transforming a point with finite coordinates by the matrix of
    the translation by [t] gives a point that compares equal to [p + t],
    for every [t] without a NaN coordinate. *)
Theorem transform_translation s this m q x y z tx ty tz :
  points s !! this = Some (Point_xyz x y z) ->
  points s !! q = Some (Point_xyz tx ty tz) ->
  matrices s !! m = Some (translation4 tx ty tz) ->
  Point_is_finite (Point_xyz x y z) = true ->
  Point_has_nan (Point_xyz tx ty tz) = false ->
  exists R S,
    transform this m s = Returns this (set_point this R s)
    /\ operator_add this q s = Some S
    /\ Point_eqb R S = true.
Proof.
  intros HP HQ HM Hfin Hnan.
  exists (Point_xyz (x * 1 + y * 0 + z * 0 + tx) (x * 0 + y * 1 + z * 0 + ty)
                    (x * 0 + y * 0 + z * 1 + tz))%float,
         (Point_xyz (x + tx) (y + ty) (z + tz))%float.
  split; [|split].
  - unfold translation4 in HM. exact (transform_spec _ _ _ _ _ _ _ _ _ _ _ _ _ _ _ _ _ _ _ HP HM).
  - reads HP HQ. reflexivity.
  - unfold Point_is_finite in Hfin. cbn in Hfin.
    apply andb_prop in Hfin. destruct Hfin as [Hxy Hfz].
    apply andb_prop in Hxy. destruct Hxy as [Hfx Hfy].
    unfold Point_has_nan in Hnan. cbn in Hnan.
    apply orb_false_elim in Hnan. destruct Hnan as [Hnxy Hnz].
    apply orb_false_elim in Hnxy. destruct Hnxy as [Hnx Hny].
    unfold Point_eqb, double_eqb. cbn.
    rewrite translation_row0, translation_row1, translation_row2 by assumption.
    reflexivity.
Qed.

Lemma transform_translation_witness :
  exists R S,
    transform 1 1 store_more = Returns 1%positive (set_point 1 R store_more)
    /\ operator_add 1 6 store_more = Some S
    /\ Point_eqb R S = true.
Proof.
  exact (transform_translation store_more 1 1 6 1 2 3 2 0 0
           eq_refl eq_refl eq_refl eq_refl eq_refl).
Defined.

(** ** Norms in [double] *)

(** X12.  When no coordinate of [p] is NaN, [p.normInf()] is one of the
    three absolute values [|x|], [|y|], [|z|] and none of them is larger;
    in particular it is not negative. *)
Theorem normInf_is_largest s p x y z :
  points s !! p = Some (Point_xyz x y z) ->
  Point_has_nan (Point_xyz x y z) = false ->
  exists n,
    normInf p s = Some n
    /\ (abs x <=? n)%float = true
    /\ (abs y <=? n)%float = true
    /\ (abs z <=? n)%float = true
    /\ (n = abs x \/ n = abs y \/ n = abs z)
    /\ (0 <=? n)%float = true.
Proof.
  intros HP Hnan. unfold Point_has_nan in Hnan. cbn in Hnan.
  apply orb_false_elim in Hnan. destruct Hnan as [Hnxy Hnz].
  apply orb_false_elim in Hnxy. destruct Hnxy as [Hnx Hny].
  exists (std_max (abs x) (std_max (abs y) (abs z))).
  destruct (std_max3_upper x y z Hnx Hny Hnz) as (Hx & Hy & Hz & Hone).
  split; [reads HP HP; reflexivity|].
  split; [exact Hx|split; [exact Hy|split; [exact Hz|split; [exact Hone|]]]].
  destruct Hone as [-> | [-> | ->]]; apply leb_zero_abs; assumption.
Qed.

Lemma normInf_is_largest_witness :
  exists n,
    normInf 1 store_more = Some n
    /\ (abs 1 <=? n)%float = true
    /\ (abs 2 <=? n)%float = true
    /\ (abs 3 <=? n)%float = true
    /\ (n = abs 1 \/ n = abs 2 \/ n = abs 3)
    /\ (0 <=? n)%float = true.
Proof.
  exact (normInf_is_largest store_more 1 1 2 3 eq_refl eq_refl).
Defined.

(** X13.  [norm1] and [norm2] are NaN exactly when some coordinate is
    NaN.  [normInf] is NaN exactly when the first coordinate is: because
    [std::max(a, b)] returns [a] when the comparison involves a NaN, a NaN
    in [y] or [z] does not reach the result. *)
Theorem norms_and_nan s p x y z :
  points s !! p = Some (Point_xyz x y z) ->
  exists n1 n2 ninf,
    norm1 p s = Some n1
    /\ norm2 p s = Some n2
    /\ normInf p s = Some ninf
    /\ is_nan n1 = Point_has_nan (Point_xyz x y z)
    /\ is_nan n2 = Point_has_nan (Point_xyz x y z)
    /\ is_nan ninf = is_nan x.
Proof.
  intros HP.
  exists (abs x + abs y + abs z)%float,
         (PrimFloat.sqrt (x * x + y * y + z * z))%float,
         (std_max (abs x) (std_max (abs y) (abs z))).
  reads HP HP. split; [reflexivity|split; [reflexivity|split; [reflexivity|]]].
  unfold Point_has_nan. cbn. split; [|split].
  - apply is_nan_sum_abs.
  - apply is_nan_sqrt_sum_squares.
  - rewrite is_nan_std_max. apply is_nan_abs.
Qed.

Lemma norms_and_nan_witness :
  exists n1 n2 ninf,
    norm1 3 store_more = Some n1
    /\ norm2 3 store_more = Some n2
    /\ normInf 3 store_more = Some ninf
    /\ is_nan n1 = true
    /\ is_nan n2 = true
    /\ is_nan ninf = false.
Proof.
  exact (norms_and_nan store_more 3 1 nan 100 eq_refl).
Defined.

(** With a NaN in [y], [normInf] even loses a larger [z]:
    [Point(1, NaN, 100).normInf()] is 1. *)
Example normInf_drops_nan :
  normInf 3 store_more = Some 1%float.
Proof. vm_compute. reflexivity. Qed.

(** X14.  [p.norm1()] is not negative when no coordinate of [p] is NaN. *)
Theorem norm1_nonneg s p x y z :
  points s !! p = Some (Point_xyz x y z) ->
  Point_has_nan (Point_xyz x y z) = false ->
  exists n, norm1 p s = Some n /\ (0 <=? n)%float = true.
Proof.
  intros HP Hnan. unfold Point_has_nan in Hnan. cbn in Hnan.
  apply orb_false_elim in Hnan. destruct Hnan as [Hnxy Hnz].
  apply orb_false_elim in Hnxy. destruct Hnxy as [Hnx Hny].
  exists (abs x + abs y + abs z)%float. split.
  - reads HP HP. reflexivity.
  - apply sum_abs_nonneg; assumption.
Qed.

Lemma norm1_nonneg_witness :
  exists n, norm1 1 store_more = Some n /\ (0 <=? n)%float = true.
Proof.
  exact (norm1_nonneg store_more 1 1 2 3 eq_refl eq_refl).
Defined.

(** ** In-place operators against the binary ones *)

(** X15.  After [p += q] the receiver holds the point that [p + q]
    returned before the call, also when [q] is [p]; the same for [-=] and
    [-]; and for [*=], [/=] against [*], [/] when [d] is not a reference to
    the first or second coordinate of [p]. *)
Theorem in_place_matches_binary s this p d x y z a b c dv :
  points s !! this = Some (Point_xyz x y z) ->
  points s !! p = Some (Point_xyz a b c) ->
  rd d s = Some dv ->
  d <> Coord this 0 -> d <> Coord this 1 ->
  exists Radd Rsub Rmul Rdiv,
    operator_add this p s = Some Radd
    /\ operator_add_assign this p s = Returns this (set_point this Radd s)
    /\ operator_sub this p s = Some Rsub
    /\ operator_sub_assign this p s = Returns this (set_point this Rsub s)
    /\ operator_mul this d s = Some Rmul
    /\ operator_mul_assign this d s = Returns this (set_point this Rmul s)
    /\ operator_div this d s = Some Rdiv
    /\ operator_div_assign this d s = Returns this (set_point this Rdiv s).
Proof.
  intros HP HQ Hd H0 H1.
  exists (Point_xyz (x + a) (y + b) (z + c))%float,
         (Point_xyz (x - a) (y - b) (z - c))%float,
         (Point_xyz (x * dv) (y * dv) (z * dv))%float,
         (Point_xyz (x / dv) (y / dv) (z / dv))%float.
  rewrite (operator_add_assign_spec _ _ _ _ _ _ _ _ _ HP HQ).
  rewrite (operator_sub_assign_spec _ _ _ _ _ _ _ _ _ HP HQ).
  rewrite (operator_mul_assign_spec _ _ _ _ _ _ _ HP Hd H0 H1).
  rewrite (operator_div_assign_spec _ _ _ _ _ _ _ HP Hd H0 H1).
  reads HP HQ. rewrite Hd. repeat split.
Qed.

Lemma in_place_matches_binary_witness :
  exists Radd Rsub Rmul Rdiv,
    operator_add 1 1 store_more = Some Radd
    /\ operator_add_assign 1 1 store_more = Returns 1%positive (set_point 1 Radd store_more)
    /\ operator_sub 1 1 store_more = Some Rsub
    /\ operator_sub_assign 1 1 store_more = Returns 1%positive (set_point 1 Rsub store_more)
    /\ operator_mul 1 (Coord 1 2) store_more = Some Rmul
    /\ operator_mul_assign 1 (Coord 1 2) store_more
       = Returns 1%positive (set_point 1 Rmul store_more)
    /\ operator_div 1 (Coord 1 2) store_more = Some Rdiv
    /\ operator_div_assign 1 (Coord 1 2) store_more
       = Returns 1%positive (set_point 1 Rdiv store_more).
Proof.
  exact (in_place_matches_binary store_more 1 1 (Coord 1 2) 1 2 3 1 2 3 3
           eq_refl eq_refl eq_refl ltac:(discriminate) ltac:(discriminate)).
Defined.

(** X16.  [p *= d] and [p /= d] always return a reference to [p] and
    change no other object, whatever [d] refers to, a coordinate of [p]
    included. *)
Theorem scalar_assign_frame s this d P dv :
  points s !! this = Some P ->
  rd d s = Some dv ->
  (exists s', operator_mul_assign this d s = Returns this s' /\ same_except this s s')
  /\ (exists s', operator_div_assign this d s = Returns this s' /\ same_except this s s').
Proof.
  intros HP Hd. destruct P as [[x y z]].
  assert (Hcase : d = Coord this 0 \/ d = Coord this 1
                  \/ (d <> Coord this 0 /\ d <> Coord this 1)).
  { destruct d as [q j|q i j|l]; try (right; right; split; discriminate).
    destruct (decide (q = this)) as [->|Hne];
      [|right; right; split; congruence].
    destruct (decide (j = 0)) as [->|Hj0]; [left; reflexivity|].
    destruct (decide (j = 1)) as [->|Hj1]; [right; left; reflexivity|].
    right; right; split; congruence. }
  destruct Hcase as [->|[->|[H0 H1]]].
  - destruct (operator_mul_assign_alias_x s this x y z HP) as [Hm Hdv].
    rewrite Hm, Hdv. split; eexists; (split; [reflexivity|apply same_except_set_point]).
  - split; eexists.
    + split; [|apply same_except_set_point]. run. rewrite !insert_insert_eq. reflexivity.
    + split; [|apply same_except_set_point]. run. rewrite !insert_insert_eq. reflexivity.
  - rewrite (operator_mul_assign_spec _ _ _ _ _ _ _ HP Hd H0 H1).
    rewrite (operator_div_assign_spec _ _ _ _ _ _ _ HP Hd H0 H1).
    split; eexists; (split; [reflexivity|apply same_except_set_point]).
Qed.

Lemma scalar_assign_frame_witness :
  (exists s', operator_mul_assign 1 (Coord 1 1) store_more = Returns 1%positive s'
              /\ same_except 1 store_more s')
  /\ (exists s', operator_div_assign 1 (Coord 1 1) store_more = Returns 1%positive s'
                 /\ same_except 1 store_more s').
Proof.
  exact (scalar_assign_frame store_more 1 (Coord 1 1) (Point_xyz 1 2 3)%float 2
           eq_refl eq_refl).
Defined.

(** ** Named accessors *)

(** X17.  The references returned by [x()], [y()] and [z()] designate the
    coordinates that [p[0]], [p[1]] and [p[2]] read: a value written through
    one of them is what the corresponding named and indexed reads return
    afterwards, the other two coordinates keep their values, and no other
    object changes. *)
Theorem named_accessors_write_through s this x y z v :
  points s !! this = Some (Point_xyz x y z) ->
  (exists s', (r <- x_ref this ;; write r v)%cmd s = Returns tt s'
     /\ x_const this s' = Some v /\ operator_index_const this 0 s' = Some v
     /\ y_const this s' = Some y /\ z_const this s' = Some z
     /\ same_except this s s')
  /\ (exists s', (r <- y_ref this ;; write r v)%cmd s = Returns tt s'
     /\ y_const this s' = Some v /\ operator_index_const this 1 s' = Some v
     /\ x_const this s' = Some x /\ z_const this s' = Some z
     /\ same_except this s s')
  /\ (exists s', (r <- z_ref this ;; write r v)%cmd s = Returns tt s'
     /\ z_const this s' = Some v /\ operator_index_const this 2 s' = Some v
     /\ x_const this s' = Some x /\ y_const this s' = Some y
     /\ same_except this s s').
Proof.
  intros HP.
  split; [|split]; eexists.
  all: split; [run; reflexivity|].
  all: run.
  all: repeat (split; [reflexivity|]).
  all: apply (same_except_set_point this _ s).
Qed.

Lemma named_accessors_write_through_witness :
  (exists s', (r <- x_ref 1 ;; write r 9)%cmd store_more = Returns tt s'
     /\ x_const 1 s' = Some 9%float /\ operator_index_const 1 0 s' = Some 9%float
     /\ y_const 1 s' = Some 2%float /\ z_const 1 s' = Some 3%float
     /\ same_except 1 store_more s')
  /\ (exists s', (r <- y_ref 1 ;; write r 9)%cmd store_more = Returns tt s'
     /\ y_const 1 s' = Some 9%float /\ operator_index_const 1 1 s' = Some 9%float
     /\ x_const 1 s' = Some 1%float /\ z_const 1 s' = Some 3%float
     /\ same_except 1 store_more s')
  /\ (exists s', (r <- z_ref 1 ;; write r 9)%cmd store_more = Returns tt s'
     /\ z_const 1 s' = Some 9%float /\ operator_index_const 1 2 s' = Some 9%float
     /\ x_const 1 s' = Some 1%float /\ y_const 1 s' = Some 2%float
     /\ same_except 1 store_more s').
Proof.
  exact (named_accessors_write_through store_more 1 1 2 3 9 eq_refl).
Defined.

End MoreMethods.
